(** * githubtool: a shallow embedding of [github.py]

    The command line client of [github.py] is embedded function by
    function.  Python strings are [string]s over 8-bit characters, the
    values produced by the JSON decoder are the inductive [json], Python
    exceptions are the values of [exn] carried by [result], and the
    coroutines that talk to the network are computations of the monad
    [M], which threads the log of the requests sent and of the lines
    printed. *)

From Stdlib Require Import String Ascii List ZArith Lia Bool Arith Sorted.
From Equations Require Import Equations.
Import ListNotations.

Open Scope string_scope.
Open Scope list_scope.

(** ** Python strings *)

Module PyStr.

(** [s.startswith(p)] *)
Fixpoint startswith (p s : string) : bool :=
  match p, s with
  | EmptyString, _ => true
  | String _ _, EmptyString => false
  | String a p', String b s' => Ascii.eqb a b && startswith p' s'
  end.

(** [s[:n]] and [s[n:]] for [0 <= n] *)
Fixpoint take (n : nat) (s : string) : string :=
  match n, s with
  | S k, String a s' => String a (take k s')
  | _, _ => EmptyString
  end.

Fixpoint drop (n : nat) (s : string) : string :=
  match n, s with
  | S k, String _ s' => drop k s'
  | _, _ => s
  end.

(** Position of the first occurrence of [sub] in [s]. *)
Fixpoint index_of (sub s : string) : option nat :=
  if startswith sub s then Some 0%nat
  else match s with
       | EmptyString => None
       | String _ s' => option_map S (index_of sub s')
       end.

(** [s.find(sub)]: the lowest index, or [-1]. *)
Definition find (sub s : string) : Z :=
  match index_of sub s with
  | Some i => Z.of_nat i
  | None => (-1)%Z
  end.

(** [s[:k]] for a signed [k]: a negative bound counts from the end. *)
Definition slice_to (s : string) (k : Z) : string :=
  if (k <? 0)%Z
  then take (Z.to_nat (Z.of_nat (String.length s) + k)) s
  else take (Z.to_nat k) s.

(** [s.split(sep, 1)] for a non-empty [sep]. *)
Definition split1 (sep s : string) : list string :=
  match index_of sep s with
  | Some i => [take i s; drop (i + String.length sep) s]
  | None => [s]
  end.

(** [s.split(sep)] for a non-empty [sep].  [skip] counts the characters
    of a separator occurrence that are still to be passed over; the head
    of the result is the piece being read. *)
Fixpoint split_go (sep : string) (skip : nat) (s : string) : list string :=
  match s with
  | EmptyString => [EmptyString]
  | String a s' =>
      match skip with
      | S k => split_go sep k s'
      | O =>
          if startswith sep s
          then EmptyString :: split_go sep (String.length sep - 1) s'
          else match split_go sep 0 s' with
               | piece :: pieces => String a piece :: pieces
               | [] => [String a EmptyString]
               end
      end
  end.

Definition split (sep s : string) : list string := split_go sep 0 s.

(** [s.replace(old, new)] for a non-empty [old]. *)
Fixpoint replace_go (old new : string) (skip : nat) (s : string) : string :=
  match s with
  | EmptyString => EmptyString
  | String a s' =>
      match skip with
      | S k => replace_go old new k s'
      | O =>
          if startswith old s
          then new ++ replace_go old new (String.length old - 1) s'
          else String a (replace_go old new 0 s')
      end
  end.

Definition replace (old new s : string) : string := replace_go old new 0 s.

(** [not s] *)
Definition is_empty (s : string) : bool :=
  match s with EmptyString => true | _ => false end.

(** [c in s] for a character. *)
Fixpoint mem (c : ascii) (s : string) : bool :=
  match s with
  | EmptyString => false
  | String a s' => Ascii.eqb a c || mem c s'
  end.

(** Lower case of an ASCII letter, for case-insensitive header names. *)
Definition lower_char (c : ascii) : ascii :=
  let n := nat_of_ascii c in
  if (65 <=? n)%nat && (n <=? 90)%nat then ascii_of_nat (n + 32) else c.

Fixpoint lower (s : string) : string :=
  match s with
  | EmptyString => EmptyString
  | String a s' => String (lower_char a) (lower s')
  end.

(** The double quote character, as a one-character string. *)
Definition dq : string := String (ascii_of_nat 34) EmptyString.

End PyStr.

Import PyStr.

(** ** JSON values and exceptions *)

(** What [json.loads] returns: [None], booleans, integers, strings, lists
    and dicts.  A dict is the list of its items in insertion order, with
    one binding for each key. *)
#[warnings="-register-all"]
Inductive json : Type :=
| JNull
| JBool (b : bool)
| JNum (n : Z)
| JStr (s : string)
| JArr (l : list json)
| JObj (m : list (string * json)).

(** The exceptions raised by the program and by the libraries it calls. *)
Inductive exn : Type :=
| KeyError (key : string)
| TypeError (what : string)
| ValueError (what : string)
| UnboundLocalError (var : string)
| AttributeError (what : string)
| PyException (arg : json)          (* [raise Exception(arg)] *)
| LibraryError (what : string).     (* raised inside aiohttp, json or zlib *)

Inductive result (A : Type) : Type :=
| Ok (a : A)
| Err (e : exn).
Arguments Ok {A} a.
Arguments Err {A} e.

(** [d.get(k)] on the items of a dict. *)
Fixpoint assoc {A : Type} (k : string) (m : list (string * A)) : option A :=
  match m with
  | [] => None
  | (k', v) :: m' => if String.eqb k k' then Some v else assoc k m'
  end.

(** [js[key]] with a string key. *)
Definition subscript (js : json) (key : string) : result json :=
  match js with
  | JObj m =>
      match assoc key m with
      | Some v => Ok v
      | None => Err (KeyError key)
      end
  | JArr _ => Err (TypeError "list indices must be integers or slices, not str")
  | JStr _ => Err (TypeError "string indices must be integers")
  | _ => Err (TypeError "object is not subscriptable")
  end.

(** [bool(v)] *)
Definition truthy (v : json) : bool :=
  match v with
  | JNull => false
  | JBool b => b
  | JNum n => negb (n =? 0)%Z
  | JStr s => negb (is_empty s)
  | JArr l => match l with [] => false | _ => true end
  | JObj m => match m with [] => false | _ => true end
  end.

(** [a, b = l] *)
Definition unpack2 (l : list string) : result (string * string) :=
  match l with
  | [a; b] => Ok (a, b)
  | [] | [_] => Err (ValueError "not enough values to unpack (expected 2)")
  | _ => Err (ValueError "too many values to unpack (expected 2)")
  end.

(** ** getjs *)

Definition inspect {A : Type} (a : A) : {b : A | a = b} := exist _ a eq_refl.

(** [getjs(js, path)]: the value at a dotted path of a nested dict. *)
Equations? getjs (js : json) (path : string) : result json
  by wf (String.length path) lt :=
  getjs js path with inspect (0 <=? find "." path)%Z := {
    | exist _ true _ with inspect (split1 "." path) := {
        | exist _ [this; rest] Hsplit with subscript js this := {
            | Ok v => getjs v rest
            | Err e => Err e };
        | exist _ _ _ => Err (ValueError "not enough values to unpack (expected 2)") };
    | exist _ false _ => subscript js path }.
Proof.
  clear getjs.
  assert (Hdrop : forall n s, String.length (drop n s) = (String.length s - n)%nat).
  { induction n as [|n IH]; intros [|a s]; simpl; auto. }
  assert (Hidx : forall s i, index_of "." s = Some i -> (i < String.length s)%nat).
  { induction s as [|a s IH]; intros i; [discriminate|].
    cbn [index_of]. destruct (startswith "." (String a s)).
    - intros [= <-]; simpl; lia.
    - destruct (index_of "." s) as [j|]; simpl; [|discriminate].
      intros [= <-]. specialize (IH j eq_refl). lia. }
  unfold split1 in Hsplit.
  destruct (index_of "." path) as [i|] eqn:E; [|discriminate].
  injection Hsplit as _ <-. rewrite Hdrop. apply Hidx in E. simpl; lia.
Qed.

(** ** Regular expressions

    The three patterns of the program are sequences of single-character
    classes, each taken once or under a greedy [*] or [+].  [match_here]
    is the backtracking matcher of Python's [re] on this fragment: a
    greedy item first takes the longest run and gives characters back one
    by one until the rest of the pattern matches. *)

Module Re.

Inductive cclass : Type :=
| Lit (c : ascii)        (* the character itself *)
| Dot                    (* [.]: any character but a newline *)
| NotLit (c : ascii)     (* [[^c]] *)
| Digit.                 (* [\d] *)

Inductive quant : Type := Once | Star | Plus.

Definition regex : Type := list (cclass * quant).

Definition is_digit (a : ascii) : bool :=
  let n := nat_of_ascii a in (48 <=? n)%nat && (n <=? 57)%nat.

Definition accepts (c : cclass) (a : ascii) : bool :=
  match c with
  | Lit x => Ascii.eqb a x
  | Dot => negb (Ascii.eqb a (ascii_of_nat 10))
  | NotLit x => negb (Ascii.eqb a x)
  | Digit => is_digit a
  end.

(** Length of the longest prefix of [s] made of characters of [c]. *)
Fixpoint run (c : cclass) (s : string) : nat :=
  match s with
  | EmptyString => 0
  | String a s' => if accepts c a then S (run c s') else 0
  end.

(** Tries [k] on [n], [n - 1], ..., [lo] and keeps the first success. *)
Fixpoint try_down (k : nat -> option (list nat)) (lo n : nat)
  : option (list nat) :=
  if (n <? lo)%nat then None
  else match k n with
       | Some r => Some (n :: r)
       | None => match n with
                 | O => None
                 | S n' => try_down k lo n'
                 end
       end.

(** Match of [re] at the start of [s]: the number of characters taken by
    each item of the pattern. *)
Fixpoint match_here (re : regex) (s : string) : option (list nat) :=
  match re with
  | [] => Some []
  | (c, Once) :: re' =>
      match s with
      | EmptyString => None
      | String a s' =>
          if accepts c a
          then option_map (cons 1%nat) (match_here re' s')
          else None
      end
  | (c, Star) :: re' =>
      try_down (fun n => match_here re' (drop n s)) 0 (run c s)
  | (c, Plus) :: re' =>
      try_down (fun n => match_here re' (drop n s)) 1 (run c s)
  end.

Definition total (lens : list nat) : nat := fold_right Nat.add 0%nat lens.

(** [re.match(re, s)]: the text matched at the start of [s]. *)
Definition match_ (re : regex) (s : string) : option string :=
  option_map (fun lens => take (total lens) s) (match_here re s).

(** [re.search(re, s)]: the leftmost match, as the rest of [s] from the
    start of the match and the lengths taken by the items. *)
Fixpoint search (re : regex) (s : string) : option (string * list nat) :=
  match match_here re s with
  | Some lens => Some (s, lens)
  | None =>
      match s with
      | EmptyString => None
      | String _ s' => search re s'
      end
  end.

(** The text taken by the items [from], ..., [from + count - 1] of a
    match: a group of the pattern. *)
Definition group (m : string * list nat) (from count : nat) : string :=
  let (s, lens) := m in
  take (total (firstn count (skipn from lens)))
       (drop (total (firstn from lens)) s).

(** [re.sub(re, '', s)]: every leftmost non-overlapping match deleted.
    [skip] counts the characters of the current match still to delete. *)
Fixpoint sub_go (re : regex) (skip : nat) (s : string) : string :=
  match s with
  | EmptyString => EmptyString
  | String a s' =>
      match skip with
      | S k => sub_go re k s'
      | O =>
          match option_map total (match_here re s) with
          | Some (S k) => sub_go re k s'
          | _ => String a (sub_go re 0 s')
          end
      end
  end.

Definition sub_delete (re : regex) (s : string) : string := sub_go re 0 s.

(** A literal piece of a pattern. *)
Definition lit (s : string) : regex :=
  map (fun a => (Lit a, Once)) (list_ascii_of_string s).

End Re.

(** [int(s)] for a string of decimal digits. *)
Fixpoint int_go (acc : Z) (s : string) : result Z :=
  match s with
  | EmptyString => Ok acc
  | String a s' =>
      if Re.is_digit a
      then int_go (10 * acc + Z.of_nat (nat_of_ascii a - 48)) s'
      else Err (ValueError "invalid literal for int() with base 10")
  end.

(** CPython converts at most [sys.int_max_str_digits] digits, 4300 unless
    the interpreter is configured otherwise. *)
Definition int_max_str_digits : Z := 4300.

Definition int (s : string) : result Z :=
  if is_empty s
  then Err (ValueError "invalid literal for int() with base 10")
  else if (int_max_str_digits <? Z.of_nat (Re.run Re.Digit s))%Z
  then Err (ValueError "Exceeds the limit (4300 digits) for integer string conversion")
  else int_go 0 s.

(** ** findlast *)

(** ['rel="last"'] *)
Definition rel_last : string := "rel=" ++ dq ++ "last" ++ dq.

(** [r'&page=(\d+)']; group 1 is item 6. *)
Definition page_re : Re.regex := Re.lit "&page=" ++ [(Re.Digit, Re.Plus)].

(** The [for] loop of [findlast].  The local [last] is [None] while it
    is unbound. *)
Fixpoint findlast_loop (entries : list string) (last : option string)
  : result (option string) :=
  match entries with
  | [] => Ok last
  | l :: entries' =>
      match unpack2 (split1 "; " l) with
      | Err e => Err e
      | Ok (url, rel) =>
          findlast_loop entries'
            (if String.eqb rel rel_last then Some url else last)
      end
  end.

(** [findlast(link)]: the last page number of a [Link] header; the
    argument is [None] when the header is absent. *)
Definition findlast (link : option string) : result (option Z) :=
  match link with
  | None => Ok None
  | Some link =>
      if is_empty link then Ok None
      else
        match findlast_loop (split ", " link) None with
        | Err e => Err e
        | Ok None => Err (UnboundLocalError "last")
        | Ok (Some last) =>
            if is_empty last then Ok None
            else
              match Re.search page_re last with
              | None => Ok None
              | Some m =>
                  match int (Re.group m 6 1) with
                  | Ok n => Ok (Some n)
                  | Err e => Err e
                  end
              end
        end
  end.

(** ** sanitizereponame *)

(** [r'.*github.com/'] *)
Definition github_re : Re.regex :=
  [(Re.Dot, Re.Star)] ++ Re.lit "github" ++ [(Re.Dot, Re.Once)] ++ Re.lit "com/".

(** [r'^[^/]+/[^/]+']; the anchor holds at the position [re.match] tries. *)
Definition name_re : Re.regex :=
  [(Re.NotLit "/", Re.Plus); (Re.Lit "/", Re.Once); (Re.NotLit "/", Re.Plus)].

Definition sanitizereponame (name : string) : option string :=
  let name := Re.sub_delete github_re name in
  Re.match_ name_re name.

(** ** The session, the requests and the world *)

(** [aiohttp.BasicAuth(login, password)] *)
Inductive BasicAuth : Type := mkBasicAuth (login password : string).

(** [aiohttp.ClientSession(headers=hdrs, **moreargs)]: the headers and
    the credentials attached to every request of the session. *)
Record ClientSession : Type := {
  session_headers : list (string * string);
  session_auth : option BasicAuth }.

Record request : Type := {
  rq_session : ClientSession;
  rq_url : string;
  rq_params : list (string * json) }.

(** What the program reads of a response: [r.status], [r._content] and
    [r.headers].  [_content] is the private attribute in which aiohttp 2
    keeps the raw body; the responses modelled here are those that have
    it. *)
Record response : Type := {
  status : Z;
  content : string;
  headers : list (string * string) }.

(** [hdrs.get(name)] on the case-insensitive headers of a response. *)
Fixpoint header_get (name : string) (hdrs : list (string * string))
  : option string :=
  match hdrs with
  | [] => None
  | (k, v) :: hdrs' =>
      if String.eqb (lower k) (lower name) then Some v
      else header_get name hdrs'
  end.

(** What [print] writes.  The text of [fmt % args] is not computed: the
    line is recorded as the format and its arguments. *)
Inductive output : Type :=
| Printf (fmt : string) (args : list json)   (* [print(fmt % args)] *)
| PrintValue (v : json)                      (* [print(v)] *)
| PrintStatus (st : Z) (js : json)           (* [print("HTTP status", st, js)] *)
| PrintResponse (r : response).              (* [print(r)] *)

(** The requests sent and the lines printed so far. *)
Record world : Type := {
  sent : list request;
  printed : list output }.

(** The library code under the program: the transport of the session,
    which may answer a request according to the requests seen before,
    the JSON decoder of a response, [zlib.decompress(data, wbits=31)] and
    [json.loads]. *)
Record Library : Type := {
  client_get : list request -> request -> result response;
  response_json : response -> result json;
  zlib_decompress : string -> result string;
  json_loads : string -> result json }.

(** Computations that send requests, print and may raise. *)
Definition M (A : Type) : Type := world -> result A * world.

Definition ret {A : Type} (a : A) : M A := fun w => (Ok a, w).

Definition bind {A B : Type} (m : M A) (f : A -> M B) : M B :=
  fun w =>
    match m w with
    | (Ok a, w') => f a w'
    | (Err e, w') => (Err e, w')
    end.

Definition raise {A : Type} (e : exn) : M A := fun w => (Err e, w).

Definition lift {A : Type} (r : result A) : M A := fun w => (r, w).

Notation "x <- c1 ;; c2" := (bind c1 (fun x => c2))
  (at level 61, c1 at next level, right associativity).
Notation "' pat <- c1 ;; c2" := (bind c1 (fun x => match x with pat => c2 end))
  (at level 61, pat pattern, c1 at next level, right associativity).
Notation "c1 ;; c2" := (bind c1 (fun _ => c2))
  (at level 61, right associativity).

Definition print (o : output) : M unit :=
  fun w => (Ok tt, {| sent := sent w; printed := printed w ++ [o] |}).

(** [for x in l: body(x)] *)
Fixpoint for_each {A : Type} (l : list A) (body : A -> M unit) : M unit :=
  match l with
  | [] => ret tt
  | x :: l' => body x ;; for_each l' body
  end.

(** [range(a, b)] *)
Definition range (a b : Z) : list Z :=
  map (fun i => (a + Z.of_nat i)%Z) (seq 0 (Z.to_nat (b - a))).

(** *** The [%] operator

    [conversions] lists the conversion characters of a format, skipping
    the flags and widths; [percent] raises what [fmt % args] raises. *)

Definition is_flag (a : ascii) : bool :=
  Ascii.eqb a "-" || Re.is_digit a.

Fixpoint conversions (in_spec : bool) (fmt : string) : list ascii :=
  match fmt with
  | EmptyString => []
  | String a fmt' =>
      if in_spec
      then if is_flag a then conversions true fmt'
           else a :: conversions false fmt'
      else conversions (Ascii.eqb a "%") fmt'
  end.

Fixpoint percent_args (convs : list ascii) (args : list json) : result unit :=
  match convs, args with
  | [], [] => Ok tt
  | [], _ :: _ =>
      Err (TypeError "not all arguments converted during string formatting")
  | _ :: _, [] => Err (TypeError "not enough arguments for format string")
  | c :: convs', v :: args' =>
      if Ascii.eqb c "d"
      then match v with
           | JNum _ | JBool _ => percent_args convs' args'
           | _ => Err (TypeError "%d format: a real number is required")
           end
      else percent_args convs' args'
  end.

Definition percent (fmt : string) (args : list json) : result unit :=
  percent_args (conversions false fmt) args.

(** [print(fmt % args)] *)
Definition print_fmt (fmt : string) (args : list json) : M unit :=
  lift (percent fmt args) ;; print (Printf fmt args).

(** ** GithubApi *)

(** The value of [self.d]: the dict of the constructor, or the pair that
    [loadapi] stores. *)
Inductive endpoints : Type :=
| EDict (m : list (string * json))
| ETuple (js : json) (hdrs : list (string * string)).

Record GithubApi : Type := {
  baseurl : string;
  client : ClientSession;
  d : endpoints }.

(** The arguments of the command line that the program reads. *)
Record Args : Type := {
  auth : option string;
  verbose : bool;
  urls : bool;
  all : bool;
  where_ : string;
  query : option string;
  REPOS : list string }.

Definition default_d : list (string * json) :=
  map (fun kv => (fst kv, JStr (snd kv)))
  [ ("authorizations_url", "https://api.github.com/authorizations");
    ("code_search_url", "https://api.github.com/search/code?q={query}{&page,per_page,sort,order}");
    ("commit_search_url", "https://api.github.com/search/commits?q={query}{&page,per_page,sort,order}");
    ("current_user_authorizations_html_url", "https://github.com/settings/connections/applications{/client_id}");
    ("current_user_repositories_url", "https://api.github.com/user/repos{?type,page,per_page,sort}");
    ("current_user_url", "https://api.github.com/user");
    ("emails_url", "https://api.github.com/user/emails");
    ("emojis_url", "https://api.github.com/emojis");
    ("events_url", "https://api.github.com/events");
    ("feeds_url", "https://api.github.com/feeds");
    ("followers_url", "https://api.github.com/user/followers");
    ("following_url", "https://api.github.com/user/following{/target}");
    ("gists_url", "https://api.github.com/gists{/gist_id}");
    ("hub_url", "https://api.github.com/hub");
    ("issue_search_url", "https://api.github.com/search/issues?q={query}{&page,per_page,sort,order}");
    ("issues_url", "https://api.github.com/issues");
    ("keys_url", "https://api.github.com/user/keys");
    ("notifications_url", "https://api.github.com/notifications");
    ("organization_repositories_url", "https://api.github.com/orgs/{org}/repos{?type,page,per_page,sort}");
    ("organization_url", "https://api.github.com/orgs/{org}");
    ("public_gists_url", "https://api.github.com/gists/public");
    ("rate_limit_url", "https://api.github.com/rate_limit");
    ("repository_search_url", "https://api.github.com/search/repositories?q={query}{&page,per_page,sort,order}");
    ("repository_url", "https://api.github.com/repos/{owner}/{repo}");
    ("starred_gists_url", "https://api.github.com/gists/starred");
    ("starred_url", "https://api.github.com/user/starred{/owner}{/repo}");
    ("team_url", "https://api.github.com/teams");
    ("user_organizations_url", "https://api.github.com/user/orgs");
    ("user_repositories_url", "https://api.github.com/users/{user}/repos{?type,page,per_page,sort}");
    ("user_search_url", "https://api.github.com/search/users?q={query}{&page,per_page,sort,order}");
    ("user_url", "https://api.github.com/users/{user}") ].

Definition accept_header : list (string * string) :=
  [("Accept", "application/vnd.github.v3+json")].

(** The session that [__init__] opens: the headers [hdrs] and the
    [auth] entry of [moreargs]. *)
Definition init_session (a : option string) : result ClientSession :=
  match a with
  | None => Ok {| session_headers := accept_header; session_auth := None |}
  | Some a =>
      if is_empty a
      then Ok {| session_headers := accept_header; session_auth := None |}
      else if (find ":" a >? 0)%Z
      then match unpack2 (split1 ":" a) with
           | Ok (user, pw) =>
               Ok {| session_headers := accept_header;
                     session_auth := Some (mkBasicAuth user pw) |}
           | Err e => Err e
           end
      else Ok {| session_headers :=
                   accept_header ++ [("Authorization", ("token " ++ a)%string)];
                 session_auth := None |}
  end.

(** [GithubApi(loop, args)] *)
Definition GithubApi_init (args : Args) : result GithubApi :=
  match init_session (auth args) with
  | Ok s => Ok {| baseurl := "https://api.github.com/";
                  client := s;
                  d := EDict default_d |}
  | Err e => Err e
  end.

(** [js.get(key)] *)
Definition dict_get (js : json) (key : string) : result json :=
  match js with
  | JObj m => Ok (match assoc key m with Some v => v | None => JNull end)
  | _ => Err (AttributeError "object has no attribute 'get'")
  end.

(** A method of [str] called on a value: only a string has it. *)
Definition as_str (v : json) : result string :=
  match v with
  | JStr s => Ok s
  | _ => Err (AttributeError "object has no str method")
  end.

(** Reading a local variable that may be unbound. *)
Definition read_local {A : Type} (name : string) (v : option A) : result A :=
  match v with
  | Some a => Ok a
  | None => Err (UnboundLocalError name)
  end.

(** [b'\x1f\x8b'] *)
Definition gzip_magic : string :=
  String (ascii_of_nat 31) (String (ascii_of_nat 139) EmptyString).

(** [self.getapi(apiname)] *)
Definition getapi (api : GithubApi) (apiname : string) : result json :=
  match d api with
  | EDict m =>
      let url := match assoc apiname m with Some v => v | None => JNull end in
      if negb (truthy url)
      then Err (PyException (JStr ("can't find '" ++ apiname ++ "' api")%string))
      else Ok url
  | ETuple _ _ => Err (AttributeError "'tuple' object has no attribute 'get'")
  end.

Section Client.

Variable L : Library.

(** [await self.client.get(path, params=params)] *)
Definition session_get (s : ClientSession) (path : string)
  (params : list (string * json)) : M response :=
  fun w =>
    let rq := {| rq_session := s; rq_url := path; rq_params := params |} in
    (client_get L (sent w) rq,
     {| sent := sent w ++ [rq]; printed := printed w |}).

(** The [try] statement of [get]: the value of the local [js] after it,
    [None] when no branch has bound it. *)
Definition decode (r : response) : result (option json) :=
  match response_json L r with
  | Ok js => Ok (Some js)
  | Err _ =>
      if startswith gzip_magic (content r)
      then match zlib_decompress L (content r) with
           | Ok data =>
               match json_loads L data with
               | Ok js => Ok (Some js)
               | Err e => Err e
               end
           | Err e => Err e
           end
      else Ok None
  end.

(** [await self.get(path, params)] *)
Definition get (api : GithubApi) (path : string)
  (params : list (string * json)) : M (json * list (string * string)) :=
  r <- session_get (client api) path params ;;
  js <- lift (decode r) ;;
  if negb (status r =? 200)%Z
  then js <- lift (read_local "js" js) ;;
       print (PrintStatus (status r) js) ;;
       print (PrintResponse r) ;;
       message <- lift (dict_get js "message") ;;
       raise (PyException message)
  else js <- lift (read_local "js" js) ;;
       ret (js, headers r).

(** [await self.loadapi()]: the client with its new [self.d]. *)
Definition loadapi (api : GithubApi) : M GithubApi :=
  ' (js, hdrs) <- get api (baseurl api) [] ;;
  ret {| baseurl := baseurl api; client := client api; d := ETuple js hdrs |}.

(** [await self.query(where, query, pagenr)] *)
Definition query_ (api : GithubApi) (where_ : string) (q : option string)
  (pagenr : Z) : M (json * list (string * string)) :=
  url <- lift (getapi api (where_ ++ "_search_url")%string) ;;
  url <- lift (as_str url) ;;
  let url := slice_to url (find "?" url) in
  get api url
    [("per_page", JNum 100);
     ("q", match q with Some s => JStr s | None => JNull end);
     ("page", JNum pagenr)].

(** [await self.info(fullname)] *)
Definition info (api : GithubApi) (fullname : string)
  : M (json * list (string * string)) :=
  ' (owner, repo) <- lift (unpack2 (split1 "/" fullname)) ;;
  url <- lift (getapi api "repository_url") ;;
  url <- lift (as_str url) ;;
  let url := replace "{owner}" owner url in
  let url := replace "{repo}" repo url in
  get api url [].

End Client.

(** ** Printing results *)

(** The values that [for item in v] goes through. *)
Definition iterate (v : json) : result (list json) :=
  match v with
  | JArr l => Ok l
  | JObj m => Ok (map (fun kv => JStr (fst kv)) m)
  | JStr s => Ok (map (fun a => JStr (String a EmptyString)) (list_ascii_of_string s))
  | _ => Err (TypeError "object is not iterable")
  end.

(** [v or ""] *)
Definition or_empty (v : json) : json :=
  if truthy v then v else JStr "".

(** The body of the loop of [printresult]. *)
Definition printresult_item (args : Args) (domain : string) (item : json)
  : M unit :=
  if String.eqb domain "code" then
    if urls args then
      name <- lift (getjs item "repository.full_name") ;;
      path <- lift (getjs item "path") ;;
      print_fmt "https://raw.githubusercontent.com/%s/master/%s" [name; path]
    else
      name <- lift (getjs item "repository.full_name") ;;
      path <- lift (getjs item "path") ;;
      print_fmt "%-20s %s" [name; path]
  else if String.eqb domain "issue" then
    url <- lift (getjs item "html_url") ;;
    body <- lift (getjs item "body") ;;
    print_fmt "%-20s %s" [url; body]
  else if String.eqb domain "repo" then
    if urls args then
      url <- lift (getjs item "html_url") ;;
      print (PrintValue url)
    else
      size <- lift (getjs item "size") ;;
      name <- lift (getjs item "full_name") ;;
      description <- lift (getjs item "description") ;;
      print_fmt "%8d %-25s  %s" [size; name; or_empty description]
  else if String.eqb domain "user" then
    login <- lift (getjs item "login") ;;
    print_fmt "%s" [login]
  else
    print (PrintValue item).

(** [printresult(args, where, items)] *)
Definition printresult (args : Args) (domain : string) (items : json)
  : M unit :=
  l <- lift (iterate items) ;;
  for_each l (printresult_item args domain).

(** [printrepoinfo(repo, namefield, args)] *)
Definition printrepoinfo (repo : json) (namefield : string) (args : Args)
  : M unit :=
  if urls args then
    url <- lift (getjs repo "html_url") ;;
    print (PrintValue url)
  else if verbose args then
    size <- lift (getjs repo "size") ;;
    created <- lift (getjs repo "created_at") ;;
    updated <- lift (getjs repo "updated_at") ;;
    name <- lift (getjs repo namefield) ;;
    description <- lift (getjs repo "description") ;;
    print_fmt "%10d [%s ; %s] %-25s %s" [size; created; updated; name; description]
  else
    size <- lift (getjs repo "size") ;;
    name <- lift (getjs repo namefield) ;;
    description <- lift (getjs repo "description") ;;
    print_fmt "%10d %-25s %s" [size; name; description].

(** ** The orchestrators *)

Section Orchestrators.

Variable L : Library.

(** The search domain that [querygithub] passes to [api.query]. *)
Definition search_domain (args : Args) : string :=
  if String.eqb (where_ args) "repo" then "repository" else where_ args.

(** [js, _ = await api.query(where, args.query, p)] followed by
    [printresult(args, args.where, js["items"])]. *)
Definition querygithub_page (api : GithubApi) (args : Args) (p : Z) : M unit :=
  ' (js, _) <- query_ L api (search_domain args) (query args) p ;;
  items <- lift (subscript js "items") ;;
  printresult args (where_ args) items.

(** [lastpage or 1] *)
Definition or_one (lastpage : option Z) : Z :=
  match lastpage with
  | Some n => if (n =? 0)%Z then 1%Z else n
  | None => 1%Z
  end.

(** [await querygithub(api, args)] *)
Definition querygithub (api : GithubApi) (args : Args) : M unit :=
  ' (js, hdrs) <- query_ L api (search_domain args) (query args) 1 ;;
  lastpage <- lift (findlast (header_get "Link" hdrs)) ;;
  total_count <- lift (getjs js "total_count") ;;
  print_fmt "FOUND: %d items in %d pages" [total_count; JNum (or_one lastpage)] ;;
  items <- lift (subscript js "items") ;;
  printresult args (where_ args) items ;;
  match lastpage with
  | None => ret tt
  | Some n =>
      if (n =? 0)%Z || negb (all args) then ret tt
      else for_each (range 2 (n + 1)) (querygithub_page api args)
  end.

(** The body of the loop of [inforepos]. *)
Definition inforepos_step (api : GithubApi) (args : Args) (name : string)
  : M unit :=
  match sanitizereponame name with
  | Some (String a r) =>
      ' (repo, _) <- info L api (String a r) ;;
      printrepoinfo repo "full_name" args
  | _ => print_fmt "failed to parse repository name from '%s'" [JStr name]
  end.

(** [await inforepos(api, args)] *)
Definition inforepos (api : GithubApi) (args : Args) : M unit :=
  for_each (REPOS args) (inforepos_step api args).

End Orchestrators.

(** ** What the claims speak of *)

(** The value that a nested dict holds at a list of keys. *)
Fixpoint lookup_path (segs : list string) (j : json) : option json :=
  match segs with
  | [] => Some j
  | seg :: segs' =>
      match j with
      | JObj m =>
          match assoc seg m with
          | Some v => lookup_path segs' v
          | None => None
          end
      | _ => None
      end
  end.

(** The two authentication mechanisms of a session. *)
Definition basic_active (s : ClientSession) : bool :=
  match session_auth s with Some _ => true | None => false end.

Definition token_active (s : ClientSession) : bool :=
  match header_get "Authorization" (session_headers s) with
  | Some _ => true
  | None => false
  end.

(** An exception that carries a message. *)
Definition carries_message (e : exn) : Prop :=
  exists msg : string, e = PyException (JStr msg).

(** The request that [api.query] sends for page [p]. *)
Definition page_request (api : GithubApi) (url : string) (q : option string)
  (p : Z) : request :=
  {| rq_session := client api;
     rq_url := url;
     rq_params := [("per_page", JNum 100);
                   ("q", match q with Some s => JStr s | None => JNull end);
                   ("page", JNum p)] |}.

(** The request that [api.info] sends. *)
Definition info_request (api : GithubApi) (url : string) : request :=
  {| rq_session := client api; rq_url := url; rq_params := [] |}.

(** A computation that sends nothing. *)
Definition silent {A : Type} (m : M A) : Prop :=
  forall w, sent (snd (m w)) = sent w.

(** Printing the items of a page succeeds. *)
Definition printable (args : Args) (items : json) : Prop :=
  forall w, fst (printresult args (where_ args) items w) = Ok tt.

(** A page that the server delivers whatever it has seen before, with
    status 200 and a body whose items can be printed. *)
Definition serves_page (L : Library) (args : Args) (rq : request)
  (r : response) (js : json) : Prop :=
  (forall hist, client_get L hist rq = Ok r) /\
  status r = 200%Z /\
  decode L r = Ok (Some js) /\
  exists items, subscript js "items" = Ok items /\ printable args items.

(** The world after the report of a name that does not parse. *)
Definition reported (name : string) (w : world) : world :=
  {| sent := sent w;
     printed := printed w ++
       [Printf "failed to parse repository name from '%s'" [JStr name]] |}.

(** [r'github.com/'], the part of [github_re] after [.*], and the
    character that the dot of a pattern does not match. *)
Definition host_re : Re.regex :=
  Re.lit "github" ++ [(Re.Dot, Re.Once)] ++ Re.lit "com/".

Definition newline : ascii := ascii_of_nat 10.

(** The names of a batch that parse, cleaned, in the order of the
    batch. *)
Definition parsed_names (names : list string) : list string :=
  flat_map (fun name => match sanitizereponame name with
                        | Some repo => [repo]
                        | None => []
                        end) names.

(** The lookup of [repo] is served: whatever was sent and printed
    before, [api.info] sends the one request [rq] and returns a
    description that [printrepoinfo] prints. *)
Definition lookup_served (L : Library) (api : GithubApi) (args : Args)
  (repo : string) (rq : request) : Prop :=
  forall w, exists js hdrs w1,
    info L api repo w = (Ok (js, hdrs), w1) /\
    sent w1 = sent w ++ [rq] /\
    forall w2, fst (printrepoinfo js "full_name" args w2) = Ok tt.

(** The lookup of [repo] fails with [e] after its one request [rq]. *)
Definition lookup_fails (L : Library) (api : GithubApi) (repo : string)
  (rq : request) (e : exn) : Prop :=
  forall w, exists w1,
    info L api repo w = (Err e, w1) /\ sent w1 = sent w ++ [rq].

(** ** Sample servers *)

Module Sample.

(** A library whose transport answers by [answer] and whose decoder
    reads the body by [body]; nothing is compressed. *)
Definition library (answer : request -> result response)
  (body : response -> result json) : Library :=
  {| client_get := fun _ rq => answer rq;
     response_json := body;
     zlib_decompress := fun _ => Err (LibraryError "zlib.error");
     json_loads := fun _ => Err (LibraryError "JSONDecodeError") |}.

Definition no_args : Args :=
  {| auth := None; verbose := false; urls := false; all := false;
     where_ := "code"; query := None; REPOS := [] |}.

(** The client of a run without credentials. *)
Definition api : GithubApi :=
  {| baseurl := "https://api.github.com/";
     client := {| session_headers := accept_header; session_auth := None |};
     d := EDict default_d |}.

Definition empty_world : world := {| sent := []; printed := [] |}.

(** A search for [zip] in code, all pages. *)
Definition search_args : Args :=
  {| auth := None; verbose := false; urls := false; all := true;
     where_ := "code"; query := Some "zip"; REPOS := [] |}.

Definition search_page : response :=
  {| status := 200;
     content := "page";
     headers :=
       [("Link",
         ("<https://api.github.com/search/code?q=zip&page=2>; rel=" ++ dq ++ "next" ++ dq
          ++ ", <https://api.github.com/search/code?q=zip&page=3>; " ++ rel_last)%string)] |}.

Definition search_body : json :=
  JObj [("total_count", JNum 250);
        ("items", JArr [JObj [("repository", JObj [("full_name", JStr "foo/bar")]);
                              ("path", JStr "data/a.zip")]])].

Definition search_library : Library :=
  library (fun _ => Ok search_page) (fun _ => Ok search_body).

(** A server that answers 401 with an empty JSON object. *)
Definition denied : response :=
  {| status := 401; content := "{}"; headers := [] |}.

Definition denied_library : Library :=
  library (fun _ => Ok denied) (fun _ => Ok (JObj [])).

(** A server that answers 401 with [{"message": "Bad credentials"}]. *)
Definition bad_credentials_library : Library :=
  library (fun _ => Ok denied)
          (fun _ => Ok (JObj [("message", JStr "Bad credentials")])).

(** A server whose body is not JSON and not compressed. *)
Definition garbled : response :=
  {| status := 200; content := "<html>"; headers := [] |}.

Definition garbled_library : Library :=
  library (fun _ => Ok garbled) (fun _ => Err (LibraryError "JSONDecodeError")).

(** The discovery document of the service root. *)
Definition root_library : Library :=
  library (fun _ => Ok {| status := 200; content := "root"; headers := [] |})
          (fun _ => Ok (JObj default_d)).

(** A server that knows the repository [c/d] and fails on every other
    address. *)
Definition repo_cd : json :=
  JObj [("size", JNum 12); ("full_name", JStr "c/d"); ("description", JNull)].

Definition cd_only_library : Library :=
  library
    (fun rq =>
       if String.eqb (rq_url rq) "https://api.github.com/repos/c/d"
       then Ok {| status := 200; content := "c/d"; headers := [] |}
       else Err (LibraryError "ClientConnectorError"))
    (fun _ => Ok repo_cd).

Definition batch_args : Args :=
  {| auth := None; verbose := false; urls := false; all := false;
     where_ := "code"; query := None; REPOS := ["a/b"; "c/d"] |}.

(** A batch whose first name does not parse, and the batch of [c/d]
    alone. *)
Definition mixed_args : Args :=
  {| auth := None; verbose := false; urls := false; all := false;
     where_ := "code"; query := None; REPOS := ["not-a-repo"; "c/d"] |}.

Definition single_args : Args :=
  {| auth := None; verbose := false; urls := false; all := false;
     where_ := "code"; query := None; REPOS := ["c/d"] |}.

(** A batch in which the third name is the first whose lookup fails. *)
Definition failing_args : Args :=
  {| auth := None; verbose := false; urls := false; all := false;
     where_ := "code"; query := None;
     REPOS := ["https://github.com/c/d/issues/1"; "not-a-repo"; "a/b"; "c/d"] |}.

End Sample.

(** ** The repository listing *)

(** The body of the loop of [printrepolist]: [args.all or not
    repo["fork"]] reads the [fork] field only when [args.all] is unset. *)
Definition printrepolist_item (args : Args) (repo : json) : M unit :=
  if all args then printrepoinfo repo "name" args
  else
    fork <- lift (subscript repo "fork") ;;
    if negb (truthy fork) then printrepoinfo repo "name" args else ret tt.

(** [printrepolist(jslist, args)] *)
Definition printrepolist (jslist : json) (args : Args) : M unit :=
  l <- lift (iterate jslist) ;;
  for_each l (printrepolist_item args).

Section Listing.

Variable L : Library.

(** [await self.list(username, pagenr)] *)
Definition list_ (api : GithubApi) (username : string) (pagenr : Z)
  : M (json * list (string * string)) :=
  url <- lift (getapi api "user_repositories_url") ;;
  url <- lift (as_str url) ;;
  let url := replace "{user}" username url in
  let url := slice_to url (find "{" url) in
  get L api url [("per_page", JNum 100); ("page", JNum pagenr)].

(** [js, _ = await api.list(user, p)] followed by
    [printrepolist(js, args)]. *)
Definition listrepos_page (api : GithubApi) (user : string) (args : Args)
  (p : Z) : M unit :=
  ' (js, _) <- list_ api user p ;;
  printrepolist js args.

(** [await listrepos(api, user, args)] *)
Definition listrepos (api : GithubApi) (user : string) (args : Args) : M unit :=
  ' (js, hdrs) <- list_ api user 1 ;;
  lastpage <- lift (findlast (header_get "Link" hdrs)) ;;
  printrepolist js args ;;
  match lastpage with
  | None => ret tt
  | Some n =>
      if (n =? 0)%Z || negb (all args) then ret tt
      else for_each (range 2 (n + 1)) (listrepos_page api user args)
  end.

End Listing.

(** ** What the further properties speak of *)

(** The request that [api.list] sends for page [p]. *)
Definition list_request (api : GithubApi) (url : string) (p : Z) : request :=
  {| rq_session := client api;
     rq_url := url;
     rq_params := [("per_page", JNum 100); ("page", JNum p)] |}.

(** A page of a listing that the server delivers whatever it has seen
    before, with status 200 and a body that can be printed. *)
Definition serves_listing (L : Library) (args : Args) (rq : request)
  (r : response) (js : json) : Prop :=
  (forall hist, client_get L hist rq = Ok r) /\
  status r = 200%Z /\
  decode L r = Ok (Some js) /\
  forall w, fst (printrepolist js args w) = Ok tt.

(** A repository whose [fork] field is true. *)
Definition is_fork (repo : json) : bool :=
  match subscript repo "fork" with
  | Ok fork => truthy fork
  | Err _ => false
  end.

(** The search domains that [printresult] formats. *)
Definition formatted_domain (domain : string) : bool :=
  String.eqb domain "code" || String.eqb domain "issue" ||
  String.eqb domain "repo" || String.eqb domain "user".

(** The template of the default map for the repositories of a user, for
    one repository, and the addresses built from them. *)
Definition user_repositories_template : string :=
  "https://api.github.com/users/{user}/repos{?type,page,per_page,sort}".

Definition repository_template : string :=
  "https://api.github.com/repos/{owner}/{repo}".

Definition users_address : string := "https://api.github.com/users/".

Definition repos_address : string := "https://api.github.com/repos/".

(** A computation that only adds lines to those printed. *)
Definition appends {A : Type} (m : M A) : Prop :=
  forall w, exists out, printed (snd (m w)) = printed w ++ out.

(** The world after one more request and no print. *)
Definition after_request (rq : request) (w : world) : world :=
  {| sent := sent w ++ [rq]; printed := printed w |}.

(** ** More sample servers *)

Module Sample2.

(** A server whose body is compressed: the decoder of the response
    fails, the body starts with the magic bytes and inflates to a JSON
    text. *)
Definition gzipped : response :=
  {| status := 200;
     content := (gzip_magic ++ "compressed")%string;
     headers := [("Content-Encoding", "gzip")] |}.

Definition gzip_library : Library :=
  {| client_get := fun _ _ => Ok gzipped;
     response_json := fun _ => Err (LibraryError "JSONDecodeError");
     zlib_decompress :=
       fun data => if startswith gzip_magic data then Ok "{}"
                   else Err (LibraryError "zlib.error");
     json_loads :=
       fun text => if String.eqb text "{}" then Ok (JObj [])
                   else Err (LibraryError "JSONDecodeError") |}.

(** A listing in three pages. *)
Definition listing_page : response :=
  {| status := 200;
     content := "listing";
     headers :=
       [("link",
         ("<https://api.github.com/user/1/repos?per_page=100&page=3>; "
          ++ rel_last)%string)] |}.

Definition listing_body : json :=
  JArr [JObj [("fork", JBool false); ("size", JNum 7); ("name", JStr "tool");
              ("description", JStr "a tool")];
        JObj [("fork", JBool true); ("size", JNum 9); ("name", JStr "copy");
              ("description", JNull)]].

Definition listing_library : Library :=
  Sample.library (fun _ => Ok listing_page) (fun _ => Ok listing_body).


(** A search without [--all] on the server of [Sample]. *)
Definition first_page_args : Args :=
  {| auth := None; verbose := false; urls := false; all := false;
     where_ := "code"; query := Some "zip"; REPOS := [] |}.

(** A server that serves the first two pages of the search and fails on
    the third. *)
Definition third_page_fails : Library :=
  Sample.library
    (fun rq =>
       match assoc "page" (rq_params rq) with
       | Some (JNum 3) => Err (LibraryError "ServerDisconnectedError")
       | _ => Ok Sample.search_page
       end)
    (fun _ => Ok Sample.search_body).

(** A search for commits, which [printresult] prints as they are. *)
Definition commit_args : Args :=
  {| auth := None; verbose := false; urls := false; all := false;
     where_ := "commit"; query := Some "fix"; REPOS := [] |}.

(** A header whose last page is written with [n] nines. *)
Definition long_page_header (n : nat) : string :=
  ("<https://x/?q=a&page=" ++ string_of_list_ascii (repeat "9"%char n)
   ++ ">; " ++ rel_last)%string.

End Sample2.

(** * Properties *)

(** ** Strings *)

Lemma split_go_dot (a : ascii) (s : string) :
  split_go "." 0 (String a s) =
  if Ascii.eqb "." a then EmptyString :: split_go "." 0 s
  else match split_go "." 0 s with
       | piece :: pieces => String a piece :: pieces
       | [] => [String a EmptyString]
       end.
Proof.
  cbn [split_go startswith]. destruct (Ascii.eqb "." a); reflexivity.
Qed.

Lemma index_of_dot (a : ascii) (s : string) :
  index_of "." (String a s) =
  if Ascii.eqb "." a then Some 0%nat else option_map S (index_of "." s).
Proof.
  cbn [index_of startswith]. destruct (Ascii.eqb "." a); reflexivity.
Qed.

(** Without a dot the path is its only segment. *)
Lemma split_no_dot (s : string) :
  index_of "." s = None -> split "." s = [s].
Proof.
  unfold split. induction s as [|a s IH]; [reflexivity|].
  rewrite index_of_dot, split_go_dot.
  destruct (Ascii.eqb "." a); [discriminate|].
  destruct (index_of "." s); [discriminate|].
  intros _. rewrite IH; reflexivity.
Qed.

(** With a dot, the first segment ends at the first dot. *)
Lemma split_at_dot (s : string) (i : nat) :
  index_of "." s = Some i ->
  split "." s = take i s :: split "." (drop (i + 1) s).
Proof.
  unfold split. revert i. induction s as [|a s IH]; intros i; [discriminate|].
  rewrite index_of_dot, split_go_dot.
  destruct (Ascii.eqb "." a).
  - intros [= <-]. reflexivity.
  - destruct (index_of "." s) as [j|]; [|discriminate].
    intros [= <-]. rewrite (IH j eq_refl). reflexivity.
Qed.

Lemma index_of_dot_lt (s : string) (i : nat) :
  index_of "." s = Some i -> (i < String.length s)%nat.
Proof.
  revert i. induction s as [|a s IH]; intros i; [discriminate|].
  rewrite index_of_dot. destruct (Ascii.eqb "." a).
  - intros [= <-]. simpl; lia.
  - destruct (index_of "." s) as [j|]; [|discriminate].
    intros [= <-]. specialize (IH j eq_refl). simpl; lia.
Qed.

Lemma length_drop (n : nat) (s : string) :
  String.length (drop n s) = (String.length s - n)%nat.
Proof.
  revert s. induction n as [|n IH]; intros [|a s]; simpl; auto.
Qed.

(** ** getjs *)

(** One step of [getjs], by the position of the first dot. *)
Lemma getjs_step (js : json) (path : string) :
  getjs js path =
  match index_of "." path with
  | Some i =>
      match subscript js (take i path) with
      | Ok v => getjs v (drop (i + 1) path)
      | Err e => Err e
      end
  | None => subscript js path
  end.
Proof.
  funelim (getjs js path).
  all: unfold find, split1 in *;
    destruct (index_of "." path) as [i|] eqn:E; cbn [String.length] in *;
    try discriminate; try reflexivity.
  - exfalso.
    match goal with
    | H : (0 <=? Z.of_nat _)%Z = false |- _ =>
        pose proof (proj1 (Z.leb_gt _ _) H); lia
    end.
  - clear H0 H1 Heqcall. injection Hsplit as <- <-. rewrite Heq. reflexivity.
  - clear H H0 Heqcall. injection Hsplit as <- <-. rewrite Heq. reflexivity.
Qed.

(** The dotted path [P] reaches the value that the dict holds at the
    segments of [P]; a segment missing from the dict reached so far
    raises [KeyError] with that segment. *)
Lemma getjs_segments (n : nat) :
  forall (path : string) (J : json),
    (String.length path < n)%nat ->
    (forall v, lookup_path (split "." path) J = Some v ->
               getjs J path = Ok v) /\
    (forall pre seg post m,
        split "." path = pre ++ seg :: post ->
        lookup_path pre J = Some (JObj m) ->
        assoc seg m = None ->
        getjs J path = Err (KeyError seg)).
Proof.
  induction n as [|n IH]; intros path J Hlen; [lia|].
  rewrite getjs_step.
  destruct (index_of "." path) as [i|] eqn:E.
  - rewrite (split_at_dot _ _ E).
    assert (Hrest : (String.length (drop (i + 1) path) < n)%nat).
    { rewrite length_drop. apply index_of_dot_lt in E. lia. }
    split.
    + intros v. cbn [lookup_path].
      destruct J as [| | | | |m]; try discriminate.
      cbn [subscript]. destruct (assoc (take i path) m) as [v'|]; [|discriminate].
      intros Hv. apply (proj1 (IH _ v' Hrest)); exact Hv.
    + intros [|p pre] seg post m Hsplit Hpre Hseg.
      * injection Hsplit as <- _. injection Hpre as ->.
        cbn [subscript]. rewrite Hseg. reflexivity.
      * injection Hsplit as <- Hsplit. cbn [lookup_path] in Hpre.
        destruct J as [| | | | |m0]; try discriminate.
        cbn [subscript]. destruct (assoc (take i path) m0) as [v'|]; [|discriminate].
        apply (proj2 (IH _ v' Hrest) pre seg post m); assumption.
  - rewrite (split_no_dot _ E). split.
    + intros v. cbn [lookup_path].
      destruct J as [| | | | |m]; try discriminate.
      cbn [subscript]. destruct (assoc path m) as [v'|]; [|discriminate].
      intros [= <-]. reflexivity.
    + intros [|p pre] seg post m Hsplit Hpre Hseg.
      * injection Hsplit as <- _. injection Hpre as ->.
        cbn [subscript]. rewrite Hseg. reflexivity.
      * injection Hsplit as _ Hsplit. destruct pre; discriminate.
Qed.


(** C3 (as amended).  For every nested mapping [J] and dotted path [P]:
    if [J] holds a value at the segments of [P], [getjs] returns exactly
    that value; if a segment is missing from the mapping reached by the
    segments before it, [getjs] raises [KeyError] carrying that segment,
    and nothing else: the path so far is not part of the error. *)
Theorem getjs_resolves_path (J : json) (P : string) :
  (forall v, lookup_path (split "." P) J = Some v -> getjs J P = Ok v) /\
  (forall pre seg post m,
      split "." P = pre ++ seg :: post ->
      lookup_path pre J = Some (JObj m) ->
      assoc seg m = None ->
      getjs J P = Err (KeyError seg)).
Proof.
  apply (getjs_segments (S (String.length P))). lia.
Qed.

Lemma getjs_resolves_path_witness :
  let J := JObj [("resources", JObj [("core", JObj [("remaining", JNum 42)])])] in
  getjs J "resources.core.remaining" = Ok (JNum 42) /\
  getjs J "resources.core.limit" = Err (KeyError "limit").
Proof.
  intros J. split.
  - apply (proj1 (getjs_resolves_path J "resources.core.remaining")).
    reflexivity.
  - apply (proj2 (getjs_resolves_path J "resources.core.limit")
             ["resources"; "core"] "limit" [] [("remaining", JNum 42)]);
      reflexivity.
Defined.

(** C3 (as stated) fails: the error of a missing segment does not
    identify the path so far.  The segment [x] is missing at the top of
    one mapping and under [a] in another, and both lookups raise the same
    [KeyError], so no reading of the error gives back the path so far. *)
Lemma getjs_error_not_path_aware :
  ~ (exists path_so_far : exn -> list string,
        forall J P pre seg post m,
          split "." P = pre ++ seg :: post ->
          lookup_path pre J = Some (JObj m) ->
          assoc seg m = None ->
          exists e, getjs J P = Err e /\ path_so_far e = pre).
Proof.
  intros [path_so_far H].
  destruct (H (JObj []) "x" [] "x" [] [] eq_refl eq_refl eq_refl)
    as [e1 [E1 P1]].
  destruct (H (JObj [("a", JObj [])]) "a.x" ["a"] "x" [] [] eq_refl eq_refl eq_refl)
    as [e2 [E2 P2]].
  vm_compute in E1, E2.
  injection E1 as <-. injection E2 as <-.
  rewrite P1 in P2. discriminate.
Qed.

(** ** findlast *)

(** The loop leaves [last] as it was when no entry is [rel="last"]. *)
Lemma findlast_loop_no_last (entries : list string) (last : option string) :
  (forall l, In l entries ->
             exists url rel, split1 "; " l = [url; rel] /\ rel <> rel_last) ->
  findlast_loop entries last = Ok last.
Proof.
  revert last. induction entries as [|l entries IH]; intros last H; [reflexivity|].
  destruct (H l (or_introl eq_refl)) as [url [rel [Hl Hrel]]].
  cbn [findlast_loop]. rewrite Hl. cbn [unpack2].
  apply String.eqb_neq in Hrel. rewrite Hrel.
  apply IH. intros l' Hin. apply H. right. exact Hin.
Qed.

(** C1 (the code against the claim).  For every non-empty header whose
    entries all have the shape [url; rel] and none of which is
    [rel="last"], [findlast] raises [UnboundLocalError]: the local [last]
    is read before any assignment.  The claim asks for "no last page". *)
Theorem findlast_no_last_entry_raises (link : string) :
  link <> EmptyString ->
  (forall l, In l (split ", " link) ->
             exists url rel, split1 "; " l = [url; rel] /\ rel <> rel_last) ->
  findlast (Some link) = Err (UnboundLocalError "last").
Proof.
  intros Hne H. unfold findlast.
  destruct link as [|a link]; [contradiction|]. cbn [is_empty].
  rewrite (findlast_loop_no_last _ None H). reflexivity.
Qed.

Lemma findlast_no_last_entry_raises_witness :
  findlast (Some ("<https://api.github.com/search/code?q=zip&page=2>; rel="
                  ++ dq ++ "next" ++ dq)%string)
  = Err (UnboundLocalError "last").
Proof.
  apply findlast_no_last_entry_raises.
  - discriminate.
  - vm_compute. intros l [<-|[]].
    eexists; eexists; split; [reflexivity | discriminate].
Defined.

(** The cases of the header that the program handles. *)
Example findlast_page_7 :
  findlast (Some ("<https://x/?q=a&page=7>; " ++ rel_last)%string) = Ok (Some 7%Z).
Proof. reflexivity. Qed.

Example findlast_absent_or_empty :
  findlast None = Ok None /\ findlast (Some "") = Ok None.
Proof. split; reflexivity. Qed.

Example findlast_no_page_parameter :
  findlast (Some ("<https://x/?q=a>; " ++ rel_last)%string) = Ok None.
Proof. reflexivity. Qed.

(** An entry without the separator ["; "] cannot be unpacked. *)
Example findlast_malformed_entry_raises :
  findlast (Some "<https://x/?q=a&page=7>")
  = Err (ValueError "not enough values to unpack (expected 2)").
Proof. reflexivity. Qed.

(** ** sanitizereponame *)

Lemma mem_drop (c : ascii) (n : nat) (s : string) :
  mem c s = false -> mem c (drop n s) = false.
Proof.
  revert s. induction n as [|n IH]; intros [|a s]; cbn [drop mem]; auto.
  intros H. apply orb_false_iff in H as [_ H]. apply IH. exact H.
Qed.

Lemma try_down_none (k : nat -> option (list nat)) (lo n : nat) :
  (forall i, k i = None) -> Re.try_down k lo n = None.
Proof.
  intros Hk. induction n as [|n IH]; cbn [Re.try_down];
    rewrite Hk; destruct (_ <? lo)%nat; auto.
Qed.

Lemma try_down_some (k : nat -> option (list nat)) (lo n : nat) (r : list nat) :
  Re.try_down k lo n = Some r ->
  exists i r', r = i :: r' /\ (lo <= i <= n)%nat /\ k i = Some r'.
Proof.
  induction n as [|n IH]; cbn [Re.try_down].
  - destruct (0 <? lo)%nat eqn:E; [discriminate|].
    apply Nat.ltb_ge in E.
    destruct (k 0%nat) as [r'|] eqn:K; [|discriminate].
    intros [= <-]. exists 0%nat, r'. repeat split; auto.
  - destruct (S n <? lo)%nat eqn:E; [discriminate|].
    apply Nat.ltb_ge in E.
    destruct (k (S n)) as [r'|] eqn:K.
    + intros [= <-]. exists (S n), r'. repeat split; auto.
    + intros H. destruct (IH H) as [i [r' [-> [Hi Hk]]]].
      exists i, r'. repeat split; auto; lia.
Qed.

(** What [re.sub] keeps comes from its subject. *)
Lemma sub_go_mem (re : Re.regex) (c : ascii) (s : string) :
  mem c s = false -> forall skip, mem c (Re.sub_go re skip s) = false.
Proof.
  induction s as [|a s IH]; intros H skip; [reflexivity|].
  cbn [mem] in H. apply orb_false_iff in H as [Ha Hs].
  cbn [Re.sub_go]. destruct skip as [|k]; [|apply IH; exact Hs].
  destruct (option_map Re.total (Re.match_here re (String a s))) as [[|k]|];
    cbn [mem]; try rewrite Ha; try apply IH; try exact Hs;
    cbn [orb]; apply IH; exact Hs.
Qed.

(** [owner/repo] cannot be read in a string without a slash. *)
Lemma name_re_needs_slash (s : string) :
  mem "/" s = false -> Re.match_here name_re s = None.
Proof.
  intros H. unfold name_re. cbn [Re.match_here].
  apply try_down_none. intros i.
  pose proof (mem_drop "/" i s H) as Hd.
  destruct (drop i s) as [|a t]; [reflexivity|].
  cbn [mem] in Hd. apply orb_false_iff in Hd as [Ha _].
  cbn [Re.accepts]. rewrite Ha. reflexivity.
Qed.

(** What [sanitizereponame] returns is never the empty string. *)
Lemma sanitizereponame_nonempty (name repo : string) :
  sanitizereponame name = Some repo -> repo <> EmptyString.
Proof.
  unfold sanitizereponame, Re.match_. set (s := Re.sub_delete github_re name).
  destruct (Re.match_here name_re s) as [lens|] eqn:E; [|discriminate].
  cbn [option_map]. intros [= <-].
  unfold name_re in E. cbn [Re.match_here] in E.
  apply try_down_some in E as [i [r' [-> [Hi _]]]].
  destruct s as [|a t]; [cbn [Re.run] in Hi; lia|].
  cbn [Re.total fold_right]. destruct i as [|i]; [lia|].
  cbn [Nat.add take]. discriminate.
Qed.

(** ** The credentials of the session *)

Lemma index_of_colon (a : ascii) (s : string) :
  index_of ":" (String a s) =
  if Ascii.eqb ":" a then Some 0%nat else option_map S (index_of ":" s).
Proof.
  cbn [index_of startswith]. destruct (Ascii.eqb ":" a); reflexivity.
Qed.

Lemma index_of_colon_absent (s : string) :
  mem ":" s = false -> index_of ":" s = None.
Proof.
  induction s as [|a s IH]; [reflexivity|].
  cbn [mem]. intros H. apply orb_false_iff in H as [Ha Hs].
  rewrite index_of_colon, Ascii.eqb_sym, Ha, (IH Hs). reflexivity.
Qed.

(** The first colon of [user:pw] is the one after [user]. *)
Lemma split1_colon (user pw : string) :
  mem ":" user = false ->
  split1 ":" (user ++ String ":" pw) = [user; pw].
Proof.
  intros H. unfold split1.
  assert (E : index_of ":" (user ++ String ":" pw) = Some (String.length user)
              /\ take (String.length user) (user ++ String ":" pw) = user
              /\ drop (String.length user + 1) (user ++ String ":" pw) = pw).
  { induction user as [|a user IH].
    - repeat split.
    - cbn [mem] in H. apply orb_false_iff in H as [Ha Hu].
      destruct (IH Hu) as [I1 [I2 I3]].
      cbn [String.append String.length]. rewrite index_of_colon.
      rewrite Ascii.eqb_sym, Ha, I1. cbn [take drop Nat.add]. rewrite I2, I3.
      repeat split. }
  destruct E as [-> [E2 E3]]. cbn [String.length] in *. rewrite E2, E3.
  reflexivity.
Qed.

Lemma find_colon_user (user pw : string) :
  mem ":" user = false -> user <> EmptyString ->
  (find ":" (user ++ String ":" pw) >? 0)%Z = true.
Proof.
  intros H Hne. unfold find.
  pose proof (split1_colon user pw H) as S1. unfold split1 in S1.
  destruct (index_of ":" (user ++ String ":" pw)) as [i|] eqn:E; [|discriminate].
  injection S1 as S1 _.
  destruct i as [|i].
  - destruct user; [contradiction|]. cbn [String.append take] in S1. discriminate.
  - apply Z.gtb_lt. lia.
Qed.

(** C7 (as amended).  For every non-empty credential the session has
    exactly one of the two mechanisms: basic authentication when the
    first colon comes after the first character, with the part before it
    as the user and the part after it as the password, and the
    [Authorization: token] header with the whole credential when there is
    no colon. *)
Theorem init_session_one_mechanism (a : string) :
  a <> EmptyString ->
  exists s,
    init_session (Some a) = Ok s /\
    xorb (basic_active s) (token_active s) = true /\
    (forall user pw,
        a = (user ++ ":" ++ pw)%string -> mem ":" user = false ->
        user <> EmptyString ->
        session_auth s = Some (mkBasicAuth user pw) /\ token_active s = false) /\
    (mem ":" a = false ->
       header_get "Authorization" (session_headers s) = Some ("token " ++ a)%string
       /\ basic_active s = false).
Proof.
  intros Hne. unfold init_session.
  destruct a as [|c a]; [contradiction|]. cbn [is_empty].
  destruct (find ":" (String c a) >? 0)%Z eqn:F.
  - unfold find in F. unfold split1.
    destruct (index_of ":" (String c a)) as [i|] eqn:E; [|discriminate].
    cbn [unpack2]. eexists. split; [reflexivity|].
    split; [reflexivity|]. split.
    + intros user pw Ha Hu Hune.
      change (user ++ ":" ++ pw)%string with (user ++ String ":" pw)%string in Ha.
      pose proof (split1_colon user pw Hu) as S1. rewrite <- Ha in S1.
      unfold split1 in S1. rewrite E in S1. injection S1 as S1 S2.
      cbn [String.length] in *. cbn [session_auth]. rewrite S1, S2.
      split; reflexivity.
    + intros Hm. rewrite (index_of_colon_absent _ Hm) in E. discriminate.
  - eexists. split; [reflexivity|].
    split; [reflexivity|]. split.
    + intros user pw Ha Hu Hune.
      change (user ++ ":" ++ pw)%string with (user ++ String ":" pw)%string in Ha.
      rewrite Ha, (find_colon_user user pw Hu Hune) in F. discriminate.
    + intros _. split; reflexivity.
Qed.

Lemma init_session_one_mechanism_witness :
  exists s,
    init_session (Some "alice:secret123") = Ok s /\
    session_auth s = Some (mkBasicAuth "alice" "secret123") /\
    token_active s = false.
Proof.
  destruct (init_session_one_mechanism "alice:secret123") as [s [H [_ [Hb _]]]];
    [discriminate|].
  exists s. split; [exact H|].
  apply (Hb "alice" "secret123"); [reflexivity | reflexivity | discriminate].
Defined.

Example init_session_alice :
  init_session (Some "alice:secret123")
  = Ok {| session_headers := accept_header;
          session_auth := Some (mkBasicAuth "alice" "secret123") |}.
Proof. reflexivity. Qed.

Example init_session_token :
  init_session (Some "ghp_abc")
  = Ok {| session_headers := accept_header ++ [("Authorization", "token ghp_abc")];
          session_auth := None |}.
Proof. reflexivity. Qed.

(** C7 (as stated) fails: with the empty credential neither mechanism
    is active, so not every credential value selects exactly one. *)
Lemma init_session_empty_credential :
  exists s,
    init_session (Some EmptyString) = Ok s /\
    basic_active s = false /\ token_active s = false.
Proof.
  eexists. split; [reflexivity|]. split; reflexivity.
Qed.

(** C10.  A credential that starts with a colon does not select basic
    authentication: whatever follows the colon, and so when no other
    colon follows, the whole string, colon included, goes into the
    [Authorization: token] header. *)
Theorem init_session_leading_colon (t : string) :
  exists s,
    init_session (Some (String ":" t)) = Ok s /\
    basic_active s = false /\
    header_get "Authorization" (session_headers s)
    = Some ("token " ++ String ":" t)%string.
Proof.
  eexists. split; [reflexivity|]. split; reflexivity.
Qed.

Example init_session_colon_secret :
  init_session (Some ":secret")
  = Ok {| session_headers := accept_header ++ [("Authorization", "token :secret")];
          session_auth := None |}.
Proof. reflexivity. Qed.

(** ** The client *)

Section ClientFacts.

Variable L : Library.

(** [get] on a request that the transport answers: what decides the
    result is the status and what the [try] statement left in [js]. *)
Lemma get_answered (api : GithubApi) (path : string)
  (params : list (string * json)) (w : world) (r : response) :
  client_get L (sent w)
    {| rq_session := client api; rq_url := path; rq_params := params |} = Ok r ->
  fst (get L api path params w) =
  match decode L r with
  | Err e => Err e
  | Ok js =>
      if negb (status r =? 200)%Z
      then match read_local "js" js with
           | Err e => Err e
           | Ok js =>
               match dict_get js "message" with
               | Ok message => Err (PyException message)
               | Err e => Err e
               end
           end
      else match read_local "js" js with
           | Err e => Err e
           | Ok js => Ok (js, headers r)
           end
  end.
Proof.
  intros H. unfold get, bind, session_get, lift, raise, ret, print.
  rewrite H. cbn [sent].
  destruct (decode L r) as [[js|]|e]; cbn [fst read_local];
    destruct (negb (status r =? 200)%Z); cbn [fst read_local]; try reflexivity.
  destruct (dict_get js "message"); reflexivity.
Qed.

(** A successful [get] sends its request and prints nothing. *)
Lemma get_served (api : GithubApi) (path : string)
  (params : list (string * json)) (w : world) (r : response) (js : json) :
  client_get L (sent w)
    {| rq_session := client api; rq_url := path; rq_params := params |} = Ok r ->
  status r = 200%Z ->
  decode L r = Ok (Some js) ->
  get L api path params w =
  (Ok (js, headers r),
   {| sent := sent w ++
        [{| rq_session := client api; rq_url := path; rq_params := params |}];
      printed := printed w |}).
Proof.
  intros H Hs Hd. unfold get, bind, session_get, lift, raise, ret, print.
  rewrite H, Hd, Hs. reflexivity.
Qed.

(** C4 (the code against the claim).  When the JSON decoding of the body
    fails with [e] and the body does not start with the gzip magic bytes,
    [get] does not propagate [e]: the [try] statement leaves [js] unbound
    and [get] raises [UnboundLocalError] when it reads it, whatever the
    status. *)
Theorem get_decode_failure_unbound (api : GithubApi) (path : string)
  (params : list (string * json)) (w : world) (r : response) (e : exn) :
  client_get L (sent w)
    {| rq_session := client api; rq_url := path; rq_params := params |} = Ok r ->
  response_json L r = Err e ->
  startswith gzip_magic (content r) = false ->
  fst (get L api path params w) = Err (UnboundLocalError "js").
Proof.
  intros H He Hm. rewrite (get_answered _ _ _ _ _ H).
  unfold decode. rewrite He, Hm.
  destruct (negb (status r =? 200)%Z); reflexivity.
Qed.

(** When the body starts with the magic bytes and cannot be inflated,
    the error raised is that of [zlib], not the first one. *)
Lemma get_fallback_failure (api : GithubApi) (path : string)
  (params : list (string * json)) (w : world) (r : response) (e e' : exn) :
  client_get L (sent w)
    {| rq_session := client api; rq_url := path; rq_params := params |} = Ok r ->
  response_json L r = Err e ->
  startswith gzip_magic (content r) = true ->
  zlib_decompress L (content r) = Err e' ->
  fst (get L api path params w) = Err e'.
Proof.
  intros H He Hm Hz. rewrite (get_answered _ _ _ _ _ H).
  unfold decode. rewrite He, Hm, Hz. reflexivity.
Qed.

(** C8 (as amended).  For every response with a status other than 200
    whose body decodes to a JSON object, [get] raises an [Exception] that
    carries the value of the [message] field of the body, and [None] when
    the object has no such field. *)
Theorem get_non200_raises_message (api : GithubApi) (path : string)
  (params : list (string * json)) (w : world) (r : response)
  (m : list (string * json)) :
  client_get L (sent w)
    {| rq_session := client api; rq_url := path; rq_params := params |} = Ok r ->
  status r <> 200%Z ->
  decode L r = Ok (Some (JObj m)) ->
  fst (get L api path params w) =
  Err (PyException (match assoc "message" m with
                    | Some message => message
                    | None => JNull
                    end)).
Proof.
  intros H Hs Hd. rewrite (get_answered _ _ _ _ _ H), Hd.
  apply Z.eqb_neq in Hs. rewrite Hs. reflexivity.
Qed.

(** C5 (the code against the claim).  [loadapi] stores in [self.d] the
    pair that [get] returns, not the document: after every [loadapi]
    that completes, [getapi] raises [AttributeError] for every name, those
    of the default map included. *)
Theorem loadapi_breaks_getapi (api api' : GithubApi) (w : world) :
  fst (loadapi L api w) = Ok api' ->
  forall name, getapi api' name
               = Err (AttributeError "'tuple' object has no attribute 'get'").
Proof.
  unfold loadapi, bind, ret.
  destruct (get L api (baseurl api) [] w) as [[[js hdrs]|e] w1]; cbn [fst];
    [|discriminate].
  intros [= <-] name. reflexivity.
Qed.

End ClientFacts.

Lemma get_decode_failure_unbound_witness :
  fst (get Sample.garbled_library Sample.api "https://api.github.com/rate_limit" []
         Sample.empty_world)
  = Err (UnboundLocalError "js").
Proof.
  apply (get_decode_failure_unbound Sample.garbled_library Sample.api _ _ _
           Sample.garbled (LibraryError "JSONDecodeError"));
    reflexivity.
Defined.

Lemma get_non200_raises_message_witness :
  fst (get Sample.bad_credentials_library Sample.api
         "https://api.github.com/user" [] Sample.empty_world)
  = Err (PyException (JStr "Bad credentials")).
Proof.
  apply (get_non200_raises_message Sample.bad_credentials_library Sample.api _ _ _
           Sample.denied [("message", JStr "Bad credentials")]).
  - reflexivity.
  - vm_compute. discriminate.
  - reflexivity.
Defined.

(** C8 (as stated) fails: a 401 response whose body is the empty object
    raises [Exception(None)], which carries no message, generic or not. *)
Lemma get_non200_without_message :
  ~ (forall (L : Library) api path params w r,
        client_get L (sent w)
          {| rq_session := client api; rq_url := path; rq_params := params |}
        = Ok r ->
        status r <> 200%Z ->
        exists e, fst (get L api path params w) = Err e /\ carries_message e).
Proof.
  intros H.
  destruct (H Sample.denied_library Sample.api "https://api.github.com/user" []
              Sample.empty_world Sample.denied eq_refl)
    as [e [He [msg Hmsg]]].
  - vm_compute. discriminate.
  - vm_compute in He. rewrite Hmsg in He. discriminate.
Qed.

Lemma loadapi_breaks_getapi_witness :
  exists api',
    fst (loadapi Sample.root_library Sample.api Sample.empty_world) = Ok api' /\
    getapi Sample.api "rate_limit_url"
    = Ok (JStr "https://api.github.com/rate_limit") /\
    getapi api' "rate_limit_url"
    = Err (AttributeError "'tuple' object has no attribute 'get'").
Proof.
  eexists. split; [reflexivity|]. split; [reflexivity|].
  apply (loadapi_breaks_getapi Sample.root_library Sample.api _ Sample.empty_world).
  reflexivity.
Defined.

(** ** Printing sends nothing *)

Lemma silent_ret {A : Type} (a : A) : silent (ret a).
Proof. intros w. reflexivity. Qed.

Lemma silent_lift {A : Type} (r : result A) : silent (lift r).
Proof. intros w. reflexivity. Qed.

Lemma silent_print (o : output) : silent (print o).
Proof. intros w. reflexivity. Qed.

Lemma silent_bind {A B : Type} (m : M A) (f : A -> M B) :
  silent m -> (forall a, silent (f a)) -> silent (bind m f).
Proof.
  intros Hm Hf w. unfold bind. specialize (Hm w).
  destruct (m w) as [[a|e] w1]; cbn [snd] in *.
  - rewrite (Hf a w1). exact Hm.
  - exact Hm.
Qed.

Lemma silent_for_each {A : Type} (l : list A) (body : A -> M unit) :
  (forall x, silent (body x)) -> silent (for_each l body).
Proof.
  intros H. induction l as [|x l IH]; cbn [for_each].
  - apply silent_ret.
  - apply silent_bind; [apply H | intros _; exact IH].
Qed.

Lemma silent_print_fmt (fmt : string) (args : list json) :
  silent (print_fmt fmt args).
Proof.
  apply silent_bind; [apply silent_lift | intros _; apply silent_print].
Qed.

Ltac silent_steps :=
  repeat first
    [ apply silent_print_fmt
    | apply silent_print
    | apply silent_lift
    | apply silent_ret
    | apply silent_bind; [|intros ?] ].

Lemma silent_printresult (args : Args) (domain : string) (items : json) :
  silent (printresult args domain items).
Proof.
  unfold printresult. apply silent_bind; [apply silent_lift|].
  intros l. apply silent_for_each. intros item.
  unfold printresult_item.
  repeat match goal with
         | |- silent (if ?b then _ else _) => destruct b
         end; silent_steps.
Qed.

Lemma silent_printrepoinfo (repo : json) (namefield : string) (args : Args) :
  silent (printrepoinfo repo namefield args).
Proof.
  unfold printrepoinfo.
  repeat match goal with
         | |- silent (if ?b then _ else _) => destruct b
         end; silent_steps.
Qed.

(** A loop over two lists run one after the other. *)
Lemma for_each_app {A : Type} (l1 l2 : list A) (body : A -> M unit)
  (w : world) :
  for_each (l1 ++ l2) body w =
  match for_each l1 body w with
  | (Ok _, w1) => for_each l2 body w1
  | (Err e, w1) => (Err e, w1)
  end.
Proof.
  revert w. induction l1 as [|x l1 IH]; intros w; [reflexivity|].
  cbn [app for_each]. unfold bind.
  destruct (body x w) as [[u|e] w1]; [apply IH | reflexivity].
Qed.

(** ** The page walk *)

Lemma range_cons (a b : Z) :
  (a < b)%Z -> range a b = a :: range (a + 1) b.
Proof.
  intros H. unfold range.
  replace (Z.to_nat (b - a)) with (S (Z.to_nat (b - (a + 1)))) by lia.
  cbn [seq map]. f_equal; [lia|].
  rewrite <- seq_shift, map_map. apply map_ext. intros i. lia.
Qed.

Lemma in_range (a b p : Z) : In p (range a b) -> (a <= p < b)%Z.
Proof.
  unfold range. rewrite in_map_iff. intros [i [<- Hi]].
  apply in_seq in Hi. lia.
Qed.


Section OrchestratorFacts.

Variable L : Library.
Variable api : GithubApi.
Variable args : Args.

(** The address that [api.query] computes from the template. *)
Lemma query_address (url0 : string) (p : Z) (w : world) :
  getapi api (search_domain args ++ "_search_url")%string = Ok (JStr url0) ->
  query_ L api (search_domain args) (query args) p w =
  get L api (slice_to url0 (find "?" url0))
    [("per_page", JNum 100);
     ("q", match query args with Some s => JStr s | None => JNull end);
     ("page", JNum p)] w.
Proof.
  intros H. unfold query_, bind, lift. rewrite H. reflexivity.
Qed.

(** A page that is served is fetched by one request and printed. *)
Lemma querygithub_page_served (url0 : string) (p : Z) (r : response)
  (js : json) (w : world) :
  getapi api (search_domain args ++ "_search_url")%string = Ok (JStr url0) ->
  serves_page L args
    (page_request api (slice_to url0 (find "?" url0)) (query args) p) r js ->
  exists w',
    querygithub_page L api args p w = (Ok tt, w') /\
    sent w' = sent w ++
      [page_request api (slice_to url0 (find "?" url0)) (query args) p].
Proof.
  intros Hurl [Hget [Hst [Hdec [items [Hitems Hprint]]]]].
  unfold querygithub_page, bind. rewrite (query_address _ _ _ Hurl).
  rewrite (get_served L api _ _ w r js (Hget _) Hst Hdec).
  unfold lift at 1. rewrite Hitems.
  specialize (Hprint
    {| sent := sent w ++
         [page_request api (slice_to url0 (find "?" url0)) (query args) p];
       printed := printed w |}).
  pose proof (silent_printresult args (where_ args) items
    {| sent := sent w ++
         [page_request api (slice_to url0 (find "?" url0)) (query args) p];
       printed := printed w |}) as Hsil.
  unfold page_request in *. cbn [rq_params] in *.
  destruct (printresult args (where_ args) items _) as [res w'].
  cbn [fst snd sent] in *. subst res. exists w'. split; [reflexivity|exact Hsil].
Qed.

(** The walk over a list of pages that are all served sends one request
    for each, in the order of the list. *)
Lemma querygithub_pages_served (url0 : string) (pages : list Z) :
  getapi api (search_domain args ++ "_search_url")%string = Ok (JStr url0) ->
  (forall p, In p pages ->
     exists r js,
       serves_page L args
         (page_request api (slice_to url0 (find "?" url0)) (query args) p) r js) ->
  forall w, exists w',
    for_each pages (querygithub_page L api args) w = (Ok tt, w') /\
    sent w' = sent w ++
      map (page_request api (slice_to url0 (find "?" url0)) (query args)) pages.
Proof.
  intros Hurl. induction pages as [|p pages IH]; intros Hall w.
  - exists w. split; [reflexivity|]. cbn [map]. rewrite app_nil_r. reflexivity.
  - destruct (Hall p (or_introl eq_refl)) as [r [js Hp]].
    destruct (querygithub_page_served url0 p r js w Hurl Hp) as [w1 [E1 S1]].
    destruct (IH (fun q Hq => Hall q (or_intror Hq)) w1) as [w2 [E2 S2]].
    exists w2. cbn [for_each]. unfold bind. rewrite E1. split; [exact E2|].
    rewrite S2, S1. cbn [map]. rewrite <- app_assoc. reflexivity.
Qed.


End OrchestratorFacts.



(** ** The batch of repositories *)

Section BatchFacts.

Variable L : Library.
Variable api : GithubApi.
Variable args : Args.

(** The step of the loop on a name that does not parse. *)
Lemma inforepos_step_unparsed (name : string) (w : world) :
  sanitizereponame name = None ->
  inforepos_step L api args name w = (Ok tt, reported name w).
Proof.
  intros Hs. unfold inforepos_step. rewrite Hs. reflexivity.
Qed.

(** The step of the loop on a name that parses: the lookup, and the
    printing of what it returns. *)
Lemma inforepos_step_parsed (name repo : string) (w : world) :
  sanitizereponame name = Some repo ->
  inforepos_step L api args name w =
  match info L api repo w with
  | (Ok (js, _), w1) => printrepoinfo js "full_name" args w1
  | (Err e, w1) => (Err e, w1)
  end.
Proof.
  intros Hs. unfold inforepos_step. rewrite Hs.
  pose proof (sanitizereponame_nonempty _ _ Hs) as Hne.
  destruct repo as [|a r]; [contradiction|].
  unfold bind.
  destruct (info L api (String a r) w) as [[[js hdrs]|e] w1]; reflexivity.
Qed.

(** Names whose lookups are all served are gone through to the end, with
    one request for each name that parses, in the order of the names. *)
Lemma inforepos_steps_served (rq : string -> request) (names : list string) :
  (forall repo, In repo (parsed_names names) ->
     lookup_served L api args repo (rq repo)) ->
  forall w, exists w',
    for_each names (inforepos_step L api args) w = (Ok tt, w') /\
    sent w' = sent w ++ map rq (parsed_names names).
Proof.
  induction names as [|name names IH]; intros Hall w.
  - exists w. split; [reflexivity|]. cbn [parsed_names flat_map map].
    rewrite app_nil_r. reflexivity.
  - cbn [for_each]. unfold bind.
    unfold parsed_names in Hall |- *. cbn [flat_map] in Hall |- *.
    fold (parsed_names names) in Hall |- *.
    destruct (sanitizereponame name) as [repo|] eqn:Hs; cbn [app] in Hall |- *.
    + rewrite (inforepos_step_parsed name repo w Hs).
      destruct (Hall repo (or_introl eq_refl) w)
        as [js [hdrs [w1 [Hinfo [S1 Hprint]]]]].
      rewrite Hinfo. specialize (Hprint w1).
      pose proof (silent_printrepoinfo js "full_name" args w1) as Hsil.
      destruct (printrepoinfo js "full_name" args w1) as [res w2].
      cbn [fst snd] in Hprint, Hsil. subst res.
      destruct (IH (fun r Hr => Hall r (or_intror Hr)) w2) as [w3 [E3 S3]].
      exists w3. split; [exact E3|].
      rewrite S3, Hsil, S1. cbn [map]. rewrite <- app_assoc. reflexivity.
    + rewrite (inforepos_step_unparsed name w Hs).
      destruct (IH Hall (reported name w)) as [w3 [E3 S3]].
      exists w3. split; [exact E3|exact S3].
Qed.

(** C6 (as amended).  In the batch, a name that does not parse is
    reported and the batch goes on with the names after it; a name that
    parses is looked up: when its lookup fails the batch stops there
    with that failure, in the state the failed lookup left, so nothing
    is sent for the names after it; when its lookup succeeds the result
    is printed and the batch goes on with the names after it, unless the
    printing raises.  Over the whole batch: when every lookup is served,
    the batch completes and the requests sent are those of the names
    that parse, one for each, in the order of the input; and when the
    lookups before a name are served and the lookup of that name fails,
    the batch ends with that failure after the requests of the parsed
    names up to and including that name, in the order of the input, and
    nothing is sent for the names after it. *)
Theorem inforepos_skips_and_stops (name : string) (names : list string) :
  REPOS args = name :: names ->
  (sanitizereponame name = None ->
   forall w,
     inforepos L api args w =
     for_each names (inforepos_step L api args) (reported name w)) /\
  (forall repo e w w1,
     sanitizereponame name = Some repo ->
     info L api repo w = (Err e, w1) ->
     inforepos L api args w = (Err e, w1)) /\
  (forall repo js hdrs w w1,
     sanitizereponame name = Some repo ->
     info L api repo w = (Ok (js, hdrs), w1) ->
     inforepos L api args w =
     (printrepoinfo js "full_name" args ;;
      for_each names (inforepos_step L api args)) w1) /\
  (forall rq : string -> request,
     (forall repo, In repo (parsed_names (REPOS args)) ->
        lookup_served L api args repo (rq repo)) ->
     forall w, exists w',
       inforepos L api args w = (Ok tt, w') /\
       sent w' = sent w ++ map rq (parsed_names (REPOS args))) /\
  (forall (rq : string -> request) (before after : list string)
          (failing repo : string) (e : exn),
     REPOS args = before ++ failing :: after ->
     (forall r, In r (parsed_names before) ->
        lookup_served L api args r (rq r)) ->
     sanitizereponame failing = Some repo ->
     lookup_fails L api repo (rq repo) e ->
     forall w, exists w',
       inforepos L api args w = (Err e, w') /\
       sent w' = sent w ++ map rq (parsed_names before) ++ [rq repo]).
Proof.
  intros HR. split; [|split; [|split; [|split]]].
  - intros Hs w. unfold inforepos. rewrite HR. cbn [for_each].
    unfold bind at 1. rewrite (inforepos_step_unparsed name w Hs). reflexivity.
  - intros repo e w w1 Hs Hinfo. unfold inforepos. rewrite HR. cbn [for_each].
    unfold bind at 1. rewrite (inforepos_step_parsed name repo w Hs), Hinfo.
    reflexivity.
  - intros repo js hdrs w w1 Hs Hinfo. unfold inforepos. rewrite HR.
    cbn [for_each]. unfold bind at 1.
    rewrite (inforepos_step_parsed name repo w Hs), Hinfo. reflexivity.
  - intros rq Hall w. unfold inforepos.
    apply inforepos_steps_served. exact Hall.
  - intros rq before after failing repo e Hsplit Hbefore Hs Hfail w.
    unfold inforepos. rewrite Hsplit, for_each_app.
    destruct (inforepos_steps_served rq before Hbefore w) as [w1 [E1 S1]].
    rewrite E1. cbn [for_each]. unfold bind at 1.
    rewrite (inforepos_step_parsed failing repo w1 Hs).
    destruct (Hfail w1) as [w2 [Hinfo S2]]. rewrite Hinfo.
    exists w2. split; [reflexivity|].
    rewrite S2, S1, <- app_assoc. reflexivity.
Qed.

End BatchFacts.

(** The sample server serves the lookup of [c/d] and fails on [a/b]. *)
Lemma sample_lookup_served (args : Args) :
  urls args = false -> verbose args = false ->
  lookup_served Sample.cd_only_library Sample.api args "c/d"
    (info_request Sample.api "https://api.github.com/repos/c/d").
Proof.
  intros Hu Hv w.
  exists Sample.repo_cd, [],
    {| sent := sent w ++ [info_request Sample.api "https://api.github.com/repos/c/d"];
       printed := printed w |}.
  split; [reflexivity|]. split; [reflexivity|].
  intros w2. unfold printrepoinfo. rewrite Hu, Hv. reflexivity.
Qed.

Lemma sample_lookup_fails :
  lookup_fails Sample.cd_only_library Sample.api "a/b"
    (info_request Sample.api "https://api.github.com/repos/a/b")
    (LibraryError "ClientConnectorError").
Proof.
  intros w.
  exists {| sent := sent w ++ [info_request Sample.api "https://api.github.com/repos/a/b"];
            printed := printed w |}.
  split; reflexivity.
Qed.

Lemma inforepos_skips_and_stops_witness :
  inforepos Sample.cd_only_library Sample.api Sample.mixed_args
    Sample.empty_world
  = (Ok tt,
     {| sent := [info_request Sample.api "https://api.github.com/repos/c/d"];
        printed :=
          [Printf "failed to parse repository name from '%s'" [JStr "not-a-repo"];
           Printf "%10d %-25s %s" [JNum 12; JStr "c/d"; JNull]] |}) /\
  inforepos Sample.cd_only_library Sample.api Sample.batch_args Sample.empty_world
  = (Err (LibraryError "ClientConnectorError"),
     {| sent := [info_request Sample.api "https://api.github.com/repos/a/b"];
        printed := [] |}) /\
  inforepos Sample.cd_only_library Sample.api Sample.single_args
    Sample.empty_world
  = (Ok tt,
     {| sent := [info_request Sample.api "https://api.github.com/repos/c/d"];
        printed := [Printf "%10d %-25s %s" [JNum 12; JStr "c/d"; JNull]] |}) /\
  (exists w',
     inforepos Sample.cd_only_library Sample.api Sample.mixed_args
       Sample.empty_world = (Ok tt, w') /\
     sent w' = [info_request Sample.api "https://api.github.com/repos/c/d"]) /\
  (exists w',
     inforepos Sample.cd_only_library Sample.api Sample.failing_args
       Sample.empty_world = (Err (LibraryError "ClientConnectorError"), w') /\
     sent w' = [info_request Sample.api "https://api.github.com/repos/c/d";
                info_request Sample.api "https://api.github.com/repos/a/b"]).
Proof.
  split; [|split; [|split; [|split]]].
  - rewrite (proj1 (inforepos_skips_and_stops Sample.cd_only_library Sample.api
                      Sample.mixed_args "not-a-repo" ["c/d"] eq_refl) eq_refl).
    reflexivity.
  - apply (proj1 (proj2 (inforepos_skips_and_stops Sample.cd_only_library
                           Sample.api Sample.batch_args "a/b" ["c/d"] eq_refl))
             "a/b"); reflexivity.
  - rewrite (proj1 (proj2 (proj2 (inforepos_skips_and_stops
               Sample.cd_only_library Sample.api Sample.single_args "c/d" []
               eq_refl)))
             "c/d" Sample.repo_cd [] Sample.empty_world
             {| sent := [info_request Sample.api "https://api.github.com/repos/c/d"];
                printed := [] |} eq_refl eq_refl).
    reflexivity.
  - apply (proj1 (proj2 (proj2 (proj2 (inforepos_skips_and_stops
             Sample.cd_only_library Sample.api Sample.mixed_args "not-a-repo"
             ["c/d"] eq_refl))))
             (fun repo => info_request Sample.api
                            ("https://api.github.com/repos/" ++ repo)%string)).
    intros repo [<-|[]]. apply sample_lookup_served; reflexivity.
  - apply (proj2 (proj2 (proj2 (proj2 (inforepos_skips_and_stops
             Sample.cd_only_library Sample.api Sample.failing_args
             "https://github.com/c/d/issues/1" ["not-a-repo"; "a/b"; "c/d"]
             eq_refl))))
             (fun repo => info_request Sample.api
                            ("https://api.github.com/repos/" ++ repo)%string)
             ["https://github.com/c/d/issues/1"; "not-a-repo"] ["c/d"]
             "a/b" "a/b" (LibraryError "ClientConnectorError") eq_refl).
    + intros repo [<-|[]]. apply sample_lookup_served; reflexivity.
    + reflexivity.
    + apply sample_lookup_fails.
Defined.

(** C6 (as stated) fails: the server knows [c/d] and fails on [a/b];
    in the batch [a/b], [c/d] the failure of the first lookup ends the
    batch, and the request for [c/d], which alone succeeds, is never
    sent. *)
Lemma inforepos_failure_blocks_later_lookups :
  let alone :=
    inforepos Sample.cd_only_library Sample.api Sample.single_args
      Sample.empty_world in
  let batch :=
    inforepos Sample.cd_only_library Sample.api Sample.batch_args
      Sample.empty_world in
  fst alone = Ok tt /\
  In (info_request Sample.api "https://api.github.com/repos/c/d") (sent (snd alone)) /\
  fst batch = Err (LibraryError "ClientConnectorError") /\
  ~ In (info_request Sample.api "https://api.github.com/repos/c/d") (sent (snd batch)).
Proof.
  vm_compute. repeat split; auto.
  intros [H|[]]. discriminate.
Qed.

(** * Further properties *)

(** ** Searching a character *)

Lemma index_of_char (c a : ascii) (s : string) :
  index_of (String c EmptyString) (String a s) =
  if Ascii.eqb c a then Some 0%nat
  else option_map S (index_of (String c EmptyString) s).
Proof.
  cbn [index_of startswith]. destruct (Ascii.eqb c a); reflexivity.
Qed.

Lemma index_of_char_absent (c : ascii) (s : string) :
  mem c s = false -> index_of (String c EmptyString) s = None.
Proof.
  induction s as [|a s IH]; [reflexivity|].
  cbn [mem]. intros H. apply orb_false_iff in H as [Ha Hs].
  rewrite index_of_char, Ascii.eqb_sym, Ha, (IH Hs). reflexivity.
Qed.

Lemma index_of_char_app (c : ascii) (u t : string) :
  mem c u = false ->
  index_of (String c EmptyString) (u ++ t) =
  option_map (Nat.add (String.length u)) (index_of (String c EmptyString) t).
Proof.
  induction u as [|a u IH]; intros H.
  - cbn [String.append String.length]. destruct (index_of _ t); reflexivity.
  - cbn [mem] in H. apply orb_false_iff in H as [Ha Hu].
    cbn [String.append String.length].
    rewrite index_of_char, Ascii.eqb_sym, Ha, (IH Hu).
    destruct (index_of _ t); reflexivity.
Qed.

(** Before the first occurrence of a character there is none. *)
Lemma index_of_char_first (c : ascii) (s : string) (i : nat) :
  index_of (String c EmptyString) s = Some i ->
  mem c (take i s) = false /\
  exists rest, s = (take i s ++ String c rest)%string.
Proof.
  revert i. induction s as [|a s IH]; intros i; [discriminate|].
  rewrite index_of_char. destruct (Ascii.eqb c a) eqn:E.
  - intros [= <-]. apply Ascii.eqb_eq in E. subst a.
    split; [reflexivity|]. exists s. reflexivity.
  - destruct (index_of (String c EmptyString) s) as [j|]; [|discriminate].
    intros [= <-]. destruct (IH j eq_refl) as [Hm [rest Hr]].
    cbn [take mem]. rewrite Ascii.eqb_sym, E, Hm. split; [reflexivity|].
    exists rest. cbn [String.append]. rewrite <- Hr. reflexivity.
Qed.

Lemma take_app_length (u t : string) (k : nat) :
  take (String.length u + k) (u ++ t) = (u ++ take k t)%string.
Proof.
  induction u as [|a u IH]; cbn [String.length String.append Nat.add take].
  - reflexivity.
  - rewrite IH. reflexivity.
Qed.

Lemma drop_app_length (u t : string) (k : nat) :
  drop (String.length u + k) (u ++ t) = drop k t.
Proof.
  induction u as [|a u IH]; cbn [String.length String.append Nat.add drop].
  - reflexivity.
  - exact IH.
Qed.

Lemma take_all (s : string) : take (String.length s) s = s.
Proof.
  induction s as [|a s IH]; cbn [String.length take]; [|rewrite IH]; reflexivity.
Qed.

Lemma take_drop (n : nat) (s : string) : (take n s ++ drop n s)%string = s.
Proof.
  revert s. induction n as [|n IH]; intros [|a s]; cbn [take drop String.append];
    try reflexivity.
  rewrite IH. reflexivity.
Qed.

Lemma mem_app (c : ascii) (u t : string) :
  mem c (u ++ t) = mem c u || mem c t.
Proof.
  induction u as [|a u IH]; cbn [String.append mem]; [reflexivity|].
  rewrite IH. apply orb_assoc.
Qed.

Lemma append_empty_r (s : string) : (s ++ EmptyString)%string = s.
Proof.
  induction s as [|a s IH]; cbn [String.append]; [|rewrite IH]; reflexivity.
Qed.

(** [s.split(c, 1)] cuts [u ++ c ++ t] at the first [c] when [u] holds
    none. *)
Lemma split1_char (c : ascii) (u t : string) :
  mem c u = false ->
  split1 (String c EmptyString) (u ++ String c t) = [u; t].
Proof.
  intros H. unfold split1. rewrite (index_of_char_app c u _ H).
  rewrite index_of_char, Ascii.eqb_refl. cbn [option_map String.length].
  rewrite !Nat.add_0_r. rewrite (drop_app_length u (String c t) 1).
  pose proof (take_app_length u (String c t) 0) as T.
  rewrite Nat.add_0_r in T. rewrite T.
  cbn [take drop]. rewrite append_empty_r. reflexivity.
Qed.

Lemma assoc_not_in {A : Type} (k : string) (m : list (string * A)) :
  ~ In k (map fst m) -> assoc k m = None.
Proof.
  induction m as [|[k' v] m IH]; [reflexivity|].
  cbn [map fst In assoc]. intros H.
  destruct (String.eqb k k') eqn:E.
  - apply String.eqb_eq in E. subst. exfalso. apply H. left. reflexivity.
  - apply IH. intros Hin. apply H. right. exact Hin.
Qed.

(** ** The constructor *)

(** The session is opened for every credential: the unpacking of
    [split(':', 1)] is only reached when a colon was found. *)
Lemma init_session_total (a : option string) :
  exists s, init_session a = Ok s /\
            header_get "Accept" (session_headers s)
            = Some "application/vnd.github.v3+json".
Proof.
  unfold init_session. destruct a as [a|]; [|eexists; split; reflexivity].
  destruct (is_empty a); [eexists; split; reflexivity|].
  destruct (find ":" a >? 0)%Z eqn:F; [|eexists; split; reflexivity].
  unfold find in F. unfold split1.
  destruct (index_of ":" a) as [i|]; [|discriminate].
  cbn [unpack2]. eexists; split; reflexivity.
Qed.

(** X1.  The constructor never raises: for every credential, absent,
    empty, with or without a colon, it builds a client with the service
    root as base address, the built-in endpoint map, and a session whose
    requests carry the [Accept] header of the v3 API. *)
Theorem GithubApi_init_total (args : Args) :
  exists api,
    GithubApi_init args = Ok api /\
    baseurl api = "https://api.github.com/" /\
    d api = EDict default_d /\
    header_get "Accept" (session_headers (client api))
    = Some "application/vnd.github.v3+json".
Proof.
  unfold GithubApi_init.
  destruct (init_session_total (auth args)) as [s [-> Hs]].
  eexists. repeat split. exact Hs.
Qed.

(** X2.  After construction, [getapi] resolves every name of the
    built-in map to a non-empty template, and raises the exception
    [can't find '<name>' api] for every other name: a lookup never gives
    a default. *)
Theorem getapi_builtin_names (args : Args) (api : GithubApi) (name : string) :
  GithubApi_init args = Ok api ->
  (In name (map fst default_d) ->
   exists url, getapi api name = Ok (JStr url) /\ url <> EmptyString) /\
  (~ In name (map fst default_d) ->
   getapi api name
   = Err (PyException (JStr ("can't find '" ++ name ++ "' api")%string))).
Proof.
  intros Hinit. unfold GithubApi_init in Hinit.
  destruct (init_session (auth args)) as [s|e]; [|discriminate].
  injection Hinit as <-. unfold getapi. cbn [d]. split.
  - intros Hin. cbn in Hin.
    repeat (destruct Hin as [<-|Hin];
            [eexists; split; [reflexivity|discriminate]|]).
    contradiction.
  - intros Hout. rewrite (assoc_not_in _ _ Hout). reflexivity.
Qed.

Lemma getapi_builtin_names_witness :
  (exists url, getapi Sample.api "rate_limit_url" = Ok (JStr url)
               /\ url <> EmptyString) /\
  getapi Sample.api "ratelimit"
  = Err (PyException (JStr "can't find 'ratelimit' api")).
Proof.
  split.
  - apply (proj1 (getapi_builtin_names Sample.no_args Sample.api
                    "rate_limit_url" eq_refl)).
    vm_compute. tauto.
  - apply (proj2 (getapi_builtin_names Sample.no_args Sample.api
                    "ratelimit" eq_refl)).
    vm_compute. intuition discriminate.
Defined.

(** ** One request for each call *)

Lemma index_of_char_present (c : ascii) (s : string) :
  mem c s = true -> exists i, index_of (String c EmptyString) s = Some i.
Proof.
  induction s as [|a s IH]; [discriminate|].
  cbn [mem]. rewrite index_of_char, (Ascii.eqb_sym c a).
  destruct (Ascii.eqb a c); [intros _; eexists; reflexivity|].
  cbn [orb]. intros H. destruct (IH H) as [i ->]. eexists; reflexivity.
Qed.

(** [s[:s.find(sub)]] stops before the first occurrence, and drops the
    last character when there is none. *)
Lemma slice_to_find_some (sub s : string) (i : nat) :
  index_of sub s = Some i -> slice_to s (find sub s) = take i s.
Proof.
  intros H. unfold slice_to, find. rewrite H.
  destruct (Z.of_nat i <? 0)%Z eqn:E; [apply Z.ltb_lt in E; lia|].
  rewrite Nat2Z.id. reflexivity.
Qed.

Lemma slice_to_find_none (sub s : string) :
  index_of sub s = None ->
  slice_to s (find sub s) = take (String.length s - 1) s.
Proof.
  intros H. unfold slice_to, find. rewrite H. cbn [Z.ltb Z.compare].
  f_equal. lia.
Qed.

Section RequestFacts.

Variable L : Library.
Variable api : GithubApi.

(** Whatever the outcome, [get] adds its one request to those sent. *)
Lemma get_sent (path : string) (params : list (string * json)) (w : world) :
  sent (snd (get L api path params w)) =
  sent w ++ [{| rq_session := client api; rq_url := path; rq_params := params |}].
Proof.
  unfold get, bind, session_get, lift, raise, ret, print.
  destruct (client_get L (sent w) _) as [r|e]; [|reflexivity].
  destruct (decode L r) as [[js|]|e]; cbn [snd sent];
    destruct (negb (status r =? 200)%Z); cbn [read_local snd sent];
    try reflexivity.
  destruct (dict_get js "message"); reflexivity.
Qed.

(** X3.  Every call of [get] sends exactly one request, also when it
    fails: nothing is retried.  It prints nothing when it returns, and
    when it raises it has printed either nothing or the two diagnostic
    lines of a response whose status is not 200. *)
Theorem get_one_request (path : string) (params : list (string * json))
  (w : world) :
  let run := get L api path params w in
  sent (snd run) =
    sent w ++ [{| rq_session := client api; rq_url := path; rq_params := params |}] /\
  match fst run with
  | Ok _ => printed (snd run) = printed w
  | Err _ =>
      printed (snd run) = printed w \/
      exists r js,
        status r <> 200%Z /\
        printed (snd run) = printed w ++ [PrintStatus (status r) js; PrintResponse r]
  end.
Proof.
  cbv zeta. split; [apply get_sent|].
  unfold get, bind, session_get, lift, raise, ret, print.
  destruct (client_get L (sent w) _) as [r|e]; [|left; reflexivity].
  destruct (decode L r) as [[js|]|e]; cbn [fst snd printed];
    [| |left; reflexivity].
  - destruct (status r =? 200)%Z eqn:E; cbn [negb read_local fst snd printed];
      [reflexivity|].
    apply Z.eqb_neq in E.
    destruct (dict_get js "message"); cbn [fst snd printed];
      right; exists r, js; rewrite <- app_assoc; split; auto.
  - destruct (status r =? 200)%Z; cbn [negb read_local fst snd printed];
      left; reflexivity.
Qed.

(** X4.  The workaround for compressed bodies, for a response object
    that keeps its raw body in the private attribute [r._content], as
    the responses of aiohttp 2 do and as [response] models them: when the
    decoder of the response fails, the body starts with the gzip magic
    bytes, inflates, and the inflated text is JSON, [get] on a 200
    response returns that JSON value with the headers of the response, as
    if the body had been decoded at once. *)
Theorem get_gzip_fallback (path : string) (params : list (string * json))
  (w : world) (r : response) (e : exn) (data : string) (js : json) :
  client_get L (sent w)
    {| rq_session := client api; rq_url := path; rq_params := params |} = Ok r ->
  status r = 200%Z ->
  response_json L r = Err e ->
  startswith gzip_magic (content r) = true ->
  zlib_decompress L (content r) = Ok data ->
  json_loads L data = Ok js ->
  get L api path params w =
  (Ok (js, headers r),
   after_request
     {| rq_session := client api; rq_url := path; rq_params := params |} w).
Proof.
  intros H Hs He Hm Hz Hj.
  unfold get, bind, session_get, lift, raise, ret, print, decode.
  rewrite H, He, Hm, Hz, Hj, Hs. reflexivity.
Qed.

(** [query] with a template in the map is [get] on the cut template. *)
Lemma query_unfold (domain url0 : string) (q : option string) (p : Z)
  (w : world) :
  getapi api (domain ++ "_search_url")%string = Ok (JStr url0) ->
  query_ L api domain q p w =
  get L api (slice_to url0 (find "?" url0))
    [("per_page", JNum 100);
     ("q", match q with Some s => JStr s | None => JNull end);
     ("page", JNum p)] w.
Proof.
  intros H. unfold query_, bind, lift. rewrite H. reflexivity.
Qed.

(** X5.  [query] sends one request, to the part of the template before
    its first [?]: the address holds no [?], the template is that address
    followed by the query part, and the parameters are [per_page=100],
    the query and the page. *)
Theorem query_request_address (domain url0 : string) (q : option string)
  (p : Z) (w : world) :
  getapi api (domain ++ "_search_url")%string = Ok (JStr url0) ->
  mem "?" url0 = true ->
  exists address rest,
    url0 = (address ++ String "?" rest)%string /\
    mem "?" address = false /\
    sent (snd (query_ L api domain q p w)) =
      sent w ++ [page_request api address q p].
Proof.
  intros Hurl Hm. destruct (index_of_char_present _ _ Hm) as [i Hi].
  destruct (index_of_char_first _ _ _ Hi) as [Hno [rest Hr]].
  exists (take i url0), rest. split; [exact Hr|]. split; [exact Hno|].
  rewrite (query_unfold _ _ _ _ _ Hurl), get_sent.
  rewrite (slice_to_find_some _ _ _ Hi). reflexivity.
Qed.

(** X6.  When the template holds no [?], [find] gives [-1] and the slice
    [url[:-1]] drops the last character of the template: the request
    goes to the template without its last character. *)
Theorem query_template_without_query (domain url0 : string)
  (q : option string) (p : Z) (w : world) :
  getapi api (domain ++ "_search_url")%string = Ok (JStr url0) ->
  mem "?" url0 = false ->
  sent (snd (query_ L api domain q p w)) =
    sent w ++ [page_request api (take (String.length url0 - 1) url0) q p].
Proof.
  intros Hurl Hm.
  rewrite (query_unfold _ _ _ _ _ Hurl), get_sent.
  rewrite (slice_to_find_none _ _ (index_of_char_absent _ _ Hm)). reflexivity.
Qed.

End RequestFacts.

Lemma get_gzip_fallback_witness :
  get Sample2.gzip_library Sample.api "https://api.github.com/rate_limit" []
    Sample.empty_world
  = (Ok (JObj [], headers Sample2.gzipped),
     after_request
       {| rq_session := client Sample.api;
          rq_url := "https://api.github.com/rate_limit";
          rq_params := [] |} Sample.empty_world).
Proof.
  apply (get_gzip_fallback Sample2.gzip_library Sample.api _ _ _ Sample2.gzipped
           (LibraryError "JSONDecodeError") "{}" (JObj []));
    reflexivity.
Defined.

Lemma query_request_address_witness :
  exists address rest,
    "https://api.github.com/search/code?q={query}{&page,per_page,sort,order}"
    = (address ++ String "?" rest)%string /\
    mem "?" address = false /\
    sent (snd (query_ Sample.search_library Sample.api "code" (Some "zip") 2
                 Sample.empty_world)) =
      sent Sample.empty_world ++ [page_request Sample.api address (Some "zip") 2].
Proof.
  apply (query_request_address Sample.search_library Sample.api "code");
    reflexivity.
Defined.

Lemma query_template_without_query_witness :
  let api := {| baseurl := "https://api.github.com/";
                client := client Sample.api;
                d := EDict [("code_search_url", JStr "https://host/search/code")] |} in
  sent (snd (query_ Sample.search_library api "code" (Some "zip") 1
               Sample.empty_world)) =
    [page_request api "https://host/search/cod" (Some "zip") 1].
Proof.
  intros api.
  apply (query_template_without_query Sample.search_library api "code"
           "https://host/search/code" (Some "zip") 1 Sample.empty_world);
    reflexivity.
Defined.

(** ** Addresses built from templates *)

Lemma append_assoc3 (a b c : string) :
  ((a ++ b) ++ c)%string = (a ++ (b ++ c))%string.
Proof.
  induction a as [|x a IH]; cbn [String.append]; [|rewrite IH]; reflexivity.
Qed.

(** [replace] copies a piece that does not hold the first character of
    what it looks for. *)
Lemma replace_go_copy (b : ascii) (old' new u t : string) :
  mem b u = false ->
  replace_go (String b old') new 0 (u ++ t) =
  (u ++ replace_go (String b old') new 0 t)%string.
Proof.
  induction u as [|a u IH]; intros H; [reflexivity|].
  cbn [mem] in H. apply orb_false_iff in H as [Ha Hu].
  cbn [String.append replace_go startswith].
  rewrite Ascii.eqb_sym, Ha. cbn [andb]. rewrite (IH Hu). reflexivity.
Qed.

Lemma sent_bind_silent {A B : Type} (m : M A) (f : A -> M B) (w : world) :
  (forall a, silent (f a)) -> sent (snd (bind m f w)) = sent (snd (m w)).
Proof.
  intros Hf. unfold bind. destruct (m w) as [[a|e] w1]; cbn [snd];
    [apply Hf | reflexivity].
Qed.

Section AddressFacts.

Variable L : Library.
Variable api : GithubApi.

(** [info] on [owner/repo], with the template of the built-in map. *)
Lemma info_unfold (owner repo : string) (w : world) :
  getapi api "repository_url" = Ok (JStr repository_template) ->
  mem "/" owner = false -> mem "{" owner = false ->
  info L api (owner ++ String "/" repo) w =
  get L api (repos_address ++ owner ++ String "/" repo) [] w.
Proof.
  intros Hurl Hs Hb. unfold info, bind, lift.
  rewrite (split1_char "/" owner repo Hs). cbn [unpack2].
  rewrite Hurl. cbn [as_str]. f_equal.
  assert (E1 : replace "{owner}" owner repository_template
               = ((repos_address ++ owner) ++ "/{repo}")%string).
  { rewrite append_assoc3. reflexivity. }
  rewrite E1. unfold replace.
  rewrite replace_go_copy.
  - rewrite append_assoc3.
    change (replace_go "{repo}" repo 0 "/{repo}")
      with (String "/" (repo ++ EmptyString)).
    rewrite append_empty_r. reflexivity.
  - rewrite mem_app, Hb. reflexivity.
Qed.

(** X7.  For a name [owner/repo] whose owner holds no brace, [info]
    fills both placeholders of the repository template and sends its one
    request, without parameters, to [.../repos/owner/repo]; the repo part
    is copied as it is, slashes and braces included. *)
Theorem info_request_address (owner repo : string) (w : world) :
  getapi api "repository_url" = Ok (JStr repository_template) ->
  mem "/" owner = false -> mem "{" owner = false ->
  sent (snd (info L api (owner ++ "/" ++ repo) w)) =
  sent w ++ [info_request api (repos_address ++ owner ++ "/" ++ repo)].
Proof.
  intros Hurl Hs Hb.
  change (owner ++ "/" ++ repo)%string with (owner ++ String "/" repo)%string.
  rewrite (info_unfold owner repo w Hurl Hs Hb), get_sent. reflexivity.
Qed.

(** [list] with the template of the built-in map: the placeholder is
    filled and the address is cut at the first brace left. *)
Lemma list_unfold (username : string) (p : Z) (w : world) :
  getapi api "user_repositories_url" = Ok (JStr user_repositories_template) ->
  list_ L api username p w =
  get L api
    (slice_to (users_address ++ username ++ "/repos{?type,page,per_page,sort}")
       (find "{" (users_address ++ username ++ "/repos{?type,page,per_page,sort}")))
    [("per_page", JNum 100); ("page", JNum p)] w.
Proof.
  intros Hurl. unfold list_, bind, lift. rewrite Hurl. reflexivity.
Qed.

(** X8.  For a user name without a brace, [list] sends its one request
    to [.../users/<name>/repos], the template cut at its query part,
    with [per_page=100] and the page number. *)
Theorem list_request_address (username : string) (p : Z) (w : world) :
  getapi api "user_repositories_url" = Ok (JStr user_repositories_template) ->
  mem "{" username = false ->
  sent (snd (list_ L api username p w)) =
  sent w ++ [list_request api (users_address ++ username ++ "/repos") p].
Proof.
  intros Hurl Hb. rewrite (list_unfold username p w Hurl), get_sent.
  unfold list_request. do 3 f_equal.
  erewrite slice_to_find_some.
  2:{ rewrite (index_of_char_app "{" users_address _ eq_refl).
      rewrite (index_of_char_app "{" username _ Hb). reflexivity. }
  cbn [option_map]. rewrite take_app_length, take_app_length. reflexivity.
Qed.

(** X9.  A brace in the user name cuts the address short: for a name
    [u{v], where [u] holds no brace, the request goes to [.../users/u],
    without [/repos]. *)
Theorem list_request_brace_in_name (u v : string) (p : Z) (w : world) :
  getapi api "user_repositories_url" = Ok (JStr user_repositories_template) ->
  mem "{" u = false ->
  sent (snd (list_ L api (u ++ String "{" v) p w)) =
  sent w ++ [list_request api (users_address ++ u) p].
Proof.
  intros Hurl Hb. rewrite (list_unfold _ p w Hurl), get_sent.
  unfold list_request. do 3 f_equal.
  erewrite slice_to_find_some.
  2:{ rewrite (index_of_char_app "{" users_address _ eq_refl).
      rewrite append_assoc3.
      rewrite (index_of_char_app "{" u _ Hb). reflexivity. }
  cbn [option_map]. rewrite (take_app_length users_address), append_assoc3.
  rewrite (take_app_length u). cbn [take]. rewrite append_empty_r. reflexivity.
Qed.

End AddressFacts.

Lemma info_request_address_witness :
  sent (snd (info Sample.cd_only_library Sample.api "c/d" Sample.empty_world)) =
  [info_request Sample.api "https://api.github.com/repos/c/d"].
Proof.
  apply (info_request_address Sample.cd_only_library Sample.api "c" "d"
           Sample.empty_world); reflexivity.
Defined.

Lemma list_request_address_witness :
  sent (snd (list_ Sample2.listing_library Sample.api "itsme" 2
               Sample.empty_world)) =
  [list_request Sample.api "https://api.github.com/users/itsme/repos" 2].
Proof.
  apply (list_request_address Sample2.listing_library Sample.api "itsme" 2
           Sample.empty_world); reflexivity.
Defined.

Lemma list_request_brace_in_name_witness :
  sent (snd (list_ Sample2.listing_library Sample.api "its{me" 1
               Sample.empty_world)) =
  [list_request Sample.api "https://api.github.com/users/its" 1].
Proof.
  apply (list_request_brace_in_name Sample2.listing_library Sample.api
           "its" "me" 1 Sample.empty_world); reflexivity.
Defined.

(** ** The shape of a sanitized name *)

(** The characters that a run of [[^c]] may take. *)
Lemma take_run_notlit (c : ascii) (s : string) (i : nat) :
  (i <= Re.run (Re.NotLit c) s)%nat ->
  String.length (take i s) = i /\ mem c (take i s) = false.
Proof.
  revert i. induction s as [|a s IH]; intros i H.
  - cbn [Re.run] in H. assert (i = 0%nat) by lia. subst. split; reflexivity.
  - destruct i as [|i]; [split; reflexivity|].
    cbn [Re.run Re.accepts] in H.
    destruct (Ascii.eqb a c) eqn:E; cbn [negb] in H; [lia|].
    destruct (IH i ltac:(lia)) as [Hl Hm].
    cbn [take String.length mem]. rewrite E, Hl, Hm. split; reflexivity.
Qed.

(** What [[^/]+/[^/]+] matches at the start of a string. *)
Lemma name_re_match_shape (s r : string) :
  Re.match_ name_re s = Some r ->
  exists owner repo rest,
    r = (owner ++ String "/" repo)%string /\
    s = (r ++ rest)%string /\
    owner <> EmptyString /\ repo <> EmptyString /\
    mem "/" owner = false /\ mem "/" repo = false.
Proof.
  unfold Re.match_.
  destruct (Re.match_here name_re s) as [lens|] eqn:E; [|discriminate].
  cbn [option_map]. intros [= <-].
  unfold name_re in E. cbn [Re.match_here] in E.
  apply try_down_some in E as [i1 [r1 [-> [Hi1 K1]]]].
  destruct (drop i1 s) as [|a t] eqn:D; [discriminate|].
  cbn [Re.accepts] in K1.
  destruct (Ascii.eqb a "/") eqn:A; [|discriminate].
  apply Ascii.eqb_eq in A. subst a.
  destruct (Re.try_down _ 1 (Re.run (Re.NotLit "/") t)) as [r2|] eqn:T;
    [|discriminate].
  cbn [option_map] in K1. injection K1 as <-.
  apply try_down_some in T as [i2 [r3 [-> [Hi2 K2]]]].
  injection K2 as <-.
  destruct (take_run_notlit "/" s i1 ltac:(lia)) as [L1 M1].
  destruct (take_run_notlit "/" t i2 ltac:(lia)) as [L2 M2].
  exists (take i1 s), (take i2 t), (drop i2 t).
  assert (Hs : s = (take i1 s ++ String "/" t)%string).
  { rewrite <- D. symmetry. apply take_drop. }
  assert (Hr : take (Re.total [i1; 1; i2]%nat) s
               = (take i1 s ++ String "/" (take i2 t))%string).
  { cbn [Re.total fold_right]. rewrite Hs at 1. rewrite <- L1 at 1.
    rewrite take_app_length. cbn [Nat.add take]. rewrite Nat.add_0_r.
    reflexivity. }
  rewrite Hr. split; [reflexivity|]. split.
  - rewrite append_assoc3. cbn [String.append]. rewrite take_drop. exact Hs.
  - repeat split; auto.
    + intros H0. rewrite H0 in L1. cbn [String.length] in L1. lia.
    + intros H0. rewrite H0 in L2. cbn [String.length] in L2. lia.
Qed.

(** X10.  Whatever [sanitizereponame] returns has the shape
    [owner/repo]: two non-empty parts without a slash, around one slash.
    Everything after the second part is dropped. *)
Theorem sanitizereponame_shape (name r : string) :
  sanitizereponame name = Some r ->
  exists owner repo,
    r = (owner ++ "/" ++ repo)%string /\
    owner <> EmptyString /\ repo <> EmptyString /\
    mem "/" owner = false /\ mem "/" repo = false.
Proof.
  unfold sanitizereponame. intros H.
  destruct (name_re_match_shape _ _ H)
    as [owner [repo [rest [Hr [_ [Ho [Hp [Mo Mp]]]]]]]].
  exists owner, repo. repeat split; assumption.
Qed.

Lemma sanitizereponame_shape_witness :
  exists owner repo,
    "foo/bar" = (owner ++ "/" ++ repo)%string /\
    owner <> EmptyString /\ repo <> EmptyString /\
    mem "/" owner = false /\ mem "/" repo = false.
Proof.
  apply (sanitizereponame_shape "https://github.com/foo/bar/issues/1" "foo/bar").
  reflexivity.
Defined.

Section BatchAddress.

Variable L : Library.
Variable api : GithubApi.
Variable args : Args.

(** X11.  In the batch, a name that the sanitizer accepts is looked up
    by one request to the repository address of the sanitized name:
    the unpacking of [owner/repo] in [info] cannot fail on it.  (The
    sanitized name is assumed free of braces, which the template uses.) *)
Theorem inforepos_step_request (name r : string) (w : world) :
  getapi api "repository_url" = Ok (JStr repository_template) ->
  sanitizereponame name = Some r ->
  mem "{" r = false ->
  sent (snd (inforepos_step L api args name w)) =
  sent w ++ [info_request api (repos_address ++ r)].
Proof.
  intros Hurl Hs Hb. unfold inforepos_step. rewrite Hs.
  unfold sanitizereponame in Hs.
  destruct (name_re_match_shape _ _ Hs)
    as [owner [repo [rest [Hr [_ [Ho [Hp [Mo Mp]]]]]]]].
  assert (Hbo : mem "{" owner = false).
  { rewrite Hr, mem_app in Hb. apply orb_false_iff in Hb as [Hb _]. exact Hb. }
  destruct r as [|a r']; [destruct owner; [contradiction|discriminate]|].
  rewrite sent_bind_silent.
  - rewrite Hr, (info_unfold L api owner repo w Hurl Mo Hbo), get_sent.
    reflexivity.
  - intros [repo_js hdrs]. apply silent_printrepoinfo.
Qed.

End BatchAddress.

Lemma inforepos_step_request_witness :
  sent (snd (inforepos_step Sample.cd_only_library Sample.api Sample.single_args
               "https://github.com/c/d/issues/1" Sample.empty_world)) =
  [info_request Sample.api "https://api.github.com/repos/c/d"].
Proof.
  apply (inforepos_step_request Sample.cd_only_library Sample.api
           Sample.single_args "https://github.com/c/d/issues/1" "c/d"
           Sample.empty_world); reflexivity.
Defined.

(** ** Names that need no cleaning *)

Lemma drop_drop (n m : nat) (s : string) : drop n (drop m s) = drop (m + n) s.
Proof.
  revert s. induction m as [|m IH]; intros s; [reflexivity|].
  destruct s as [|a s]; cbn [drop Nat.add].
  - destruct n; reflexivity.
  - apply IH.
Qed.

(** A text that does not occur starts at no position. *)
Lemma index_of_none_drop (p s : string) :
  index_of p s = None -> forall n, startswith p (drop n s) = false.
Proof.
  induction s as [|a s IH]; intros H n.
  - cbn [index_of] in H. destruct (startswith p EmptyString) eqn:E;
      [discriminate|]. destruct n; exact E.
  - cbn [index_of] in H.
    destruct (startswith p (String a s)) eqn:E; [discriminate|].
    destruct n as [|n]; [exact E|]. cbn [drop]. apply IH.
    destruct (index_of p s); [discriminate|reflexivity].
Qed.

(** An item taken once takes one accepted character. *)
Lemma match_once_inv (c : Re.cclass) (re : Re.regex) (s : string)
  (lens : list nat) :
  Re.match_here ((c, Re.Once) :: re) s = Some lens ->
  exists a t r,
    s = String a t /\ Re.accepts c a = true /\
    Re.match_here re t = Some r /\ lens = 1%nat :: r.
Proof.
  cbn [Re.match_here]. destruct s as [|a t]; [discriminate|].
  destruct (Re.accepts c a) eqn:A; [|discriminate].
  destruct (Re.match_here re t) as [r|] eqn:E; [|discriminate].
  cbn [option_map]. intros [= <-]. exists a, t, r.
  split; [reflexivity|]. split; [exact A|]. split; [exact E|reflexivity].
Qed.

(** What follows a starred item matches after some of the string. *)
Lemma match_star_inv (c : Re.cclass) (re : Re.regex) (s : string)
  (lens : list nat) :
  Re.match_here ((c, Re.Star) :: re) s = Some lens ->
  exists i r, Re.match_here re (drop i s) = Some r.
Proof.
  cbn [Re.match_here]. intros H.
  apply try_down_some in H as [i [r [_ [_ K]]]]. exists i, r. exact K.
Qed.

(** A literal piece of a pattern matches that text. *)
Lemma match_lit_startswith (p : string) (re : Re.regex) (s : string)
  (lens : list nat) :
  Re.match_here (Re.lit p ++ re) s = Some lens ->
  startswith p s = true /\
  exists r, Re.match_here re (drop (String.length p) s) = Some r.
Proof.
  revert s lens. induction p as [|c p IH]; intros s lens H.
  - split; [reflexivity|]. exists lens. exact H.
  - unfold Re.lit in H. cbn [list_ascii_of_string map app] in H.
    apply match_once_inv in H as [a [t [r0 [-> [A [H _]]]]]].
    cbn [Re.accepts] in A. apply Ascii.eqb_eq in A. subst a.
    destruct (IH t _ H) as [Hs Hr].
    cbn [startswith String.length drop]. rewrite Ascii.eqb_refl, Hs.
    split; [reflexivity|exact Hr].
Qed.

(** A match of the host pattern ends with [com/]. *)
Lemma github_re_needs_com (t : string) (lens : list nat) :
  Re.match_here github_re t = Some lens ->
  exists n, startswith "com/" (drop n t) = true.
Proof.
  unfold github_re. cbn [app]. intros H.
  apply match_star_inv in H as [i [r H]].
  apply match_lit_startswith in H as [_ [r1 H]].
  cbn [app] in H.
  apply match_once_inv in H as [a [u [r2 [Hu [_ [H _]]]]]].
  rewrite <- (app_nil_r (Re.lit "com/")) in H.
  apply match_lit_startswith in H as [H _].
  exists (i + 7)%nat.
  change 7%nat with (String.length "github" + 1)%nat.
  rewrite Nat.add_assoc, <- !drop_drop, Hu. exact H.
Qed.

(** [re.sub] changes nothing where the pattern matches nowhere. *)
Lemma sub_go_no_match (re : Re.regex) (s : string) :
  (forall n, Re.match_here re (drop n s) = None) -> Re.sub_go re 0 s = s.
Proof.
  induction s as [|a s IH]; intros H; [reflexivity|].
  pose proof (H 0%nat) as H0. cbn [drop] in H0.
  cbn [Re.sub_go]. rewrite H0. cbn [option_map].
  rewrite IH; [reflexivity|]. intros n. apply (H (S n)).
Qed.

Lemma sub_delete_without_com (s : string) :
  index_of "com/" s = None -> Re.sub_delete github_re s = s.
Proof.
  intros H. apply sub_go_no_match. intros n.
  destruct (Re.match_here github_re (drop n s)) as [lens|] eqn:E; [|reflexivity].
  destruct (github_re_needs_com _ _ E) as [m Hm].
  rewrite drop_drop, (index_of_none_drop _ _ H) in Hm. discriminate.
Qed.

(** A run of [[^c]] stops at the first [c] or at the end. *)
Lemma run_notlit_stop (c : ascii) (u t : string) :
  mem c u = false ->
  t = EmptyString \/ (exists t', t = String c t') ->
  Re.run (Re.NotLit c) (u ++ t) = String.length u.
Proof.
  intros Hu Ht. induction u as [|a u IH].
  - cbn [String.append String.length].
    destruct Ht as [->|[t' ->]]; [reflexivity|].
    cbn [Re.run Re.accepts]. rewrite Ascii.eqb_refl. reflexivity.
  - cbn [mem] in Hu. apply orb_false_iff in Hu as [Ha Hu].
    cbn [String.append String.length Re.run Re.accepts].
    rewrite Ha. cbn [negb]. rewrite (IH Hu). reflexivity.
Qed.

(** The longest run is tried first. *)
Lemma try_down_first (k : nat -> option (list nat)) (lo n : nat)
  (r : list nat) :
  (lo <= n)%nat -> k n = Some r -> Re.try_down k lo n = Some (n :: r).
Proof.
  intros Hlo Hk. apply Nat.ltb_ge in Hlo.
  destruct n; cbn [Re.try_down]; rewrite Hlo, Hk; reflexivity.
Qed.

Lemma length_nonempty (s : string) :
  s <> EmptyString -> (1 <= String.length s)%nat.
Proof.
  destruct s; [contradiction|]. cbn [String.length]. lia.
Qed.

(** X12.  A name that is already [owner/repo], two non-empty parts
    without a slash, and in which [com/] does not occur, comes back
    unchanged from the sanitizer. *)
Theorem sanitizereponame_plain_name (owner repo : string) :
  owner <> EmptyString -> repo <> EmptyString ->
  mem "/" owner = false -> mem "/" repo = false ->
  index_of "com/" (owner ++ "/" ++ repo) = None ->
  sanitizereponame (owner ++ "/" ++ repo)
  = Some (owner ++ "/" ++ repo)%string.
Proof.
  intros Ho Hr Mo Mr Hcom.
  change (owner ++ "/" ++ repo)%string with (owner ++ String "/" repo)%string in *.
  unfold sanitizereponame. rewrite (sub_delete_without_com _ Hcom).
  unfold Re.match_, name_re. cbn [Re.match_here].
  rewrite (run_notlit_stop "/" owner (String "/" repo) Mo)
    by (right; eexists; reflexivity).
  erewrite try_down_first.
  2:{ apply length_nonempty. exact Ho. }
  2:{ pose proof (drop_app_length owner (String "/" repo) 0) as D.
      rewrite Nat.add_0_r in D. rewrite D. cbn [drop Re.accepts].
      rewrite Ascii.eqb_refl.
      pose proof (run_notlit_stop "/" repo EmptyString Mr (or_introl eq_refl)) as R.
      rewrite append_empty_r in R. rewrite R.
      erewrite try_down_first;
        [reflexivity | apply length_nonempty; exact Hr | reflexivity]. }
  cbn [option_map Re.total fold_right]. f_equal.
  rewrite take_app_length. cbn [Nat.add take].
  rewrite Nat.add_0_r, take_all. reflexivity.
Qed.

Lemma sanitizereponame_plain_name_witness :
  sanitizereponame "nlitsme/githubtool" = Some "nlitsme/githubtool".
Proof.
  apply (sanitizereponame_plain_name "nlitsme" "githubtool");
    try discriminate; reflexivity.
Defined.

(** ** Names with a host in front *)

Lemma search_none (re : Re.regex) (s : string) :
  Re.search re s = None -> forall n, Re.match_here re (drop n s) = None.
Proof.
  induction s as [|a s IH]; cbn [Re.search]; intros H n.
  - destruct (Re.match_here re EmptyString) eqn:E; [discriminate|].
    destruct n; exact E.
  - destruct (Re.match_here re (String a s)) eqn:E; [discriminate|].
    destruct n as [|n]; [exact E|]. cbn [drop]. apply IH. exact H.
Qed.

(** [re.sub] changes nothing where [github.com/] does not occur. *)
Lemma sub_delete_without_host (s : string) :
  Re.search host_re s = None -> Re.sub_delete github_re s = s.
Proof.
  intros H. apply sub_go_no_match. intros n.
  change github_re with ((Re.Dot, Re.Star) :: host_re).
  cbn [Re.match_here]. apply try_down_none. intros i.
  rewrite drop_drop. apply search_none. exact H.
Qed.

(** The dot takes every character of a text without a line break. *)
Lemma run_dot_app (u t : string) :
  mem newline u = false ->
  Re.run Re.Dot (u ++ t) = (String.length u + Re.run Re.Dot t)%nat.
Proof.
  unfold newline. induction u as [|a u IH]; intros H; [reflexivity|].
  cbn [mem] in H. apply orb_false_iff in H as [Ha Hu].
  cbn [String.append Re.run Re.accepts String.length].
  rewrite Ha. cbn [negb Nat.add]. rewrite (IH Hu). reflexivity.
Qed.

(** The host matches where it stands. *)
Lemma host_re_match (c : ascii) (t : string) :
  Ascii.eqb c newline = false ->
  Re.match_here host_re ("github" ++ String c ("com/" ++ t))
  = Some (repeat 1%nat 11).
Proof.
  unfold newline. intros Hc. unfold host_re.
  cbn [Re.lit list_ascii_of_string map app String.append Re.match_here
       Re.accepts].
  rewrite !Ascii.eqb_refl, Hc. reflexivity.
Qed.

(** After its first character, a host followed by a text without a host
    holds no further host. *)
Lemma host_re_no_match_after (c : ascii) (t : string) (j : nat) :
  Re.search host_re t = None ->
  Re.match_here host_re (drop (S j) ("github" ++ String c ("com/" ++ t))) = None.
Proof.
  intros H.
  do 10 (destruct j as [|j];
         [cbn; try reflexivity; destruct (Ascii.eqb c "g"); reflexivity|]).
  cbn [String.append drop]. apply search_none. exact H.
Qed.

(** The greedy item ends at the last position where the rest matches. *)
Lemma try_down_last (k : nat -> option (list nat)) (lo m n : nat)
  (r : list nat) :
  (lo <= m)%nat -> (m <= n)%nat -> k m = Some r ->
  (forall i, (m < i <= n)%nat -> k i = None) ->
  Re.try_down k lo n = Some (m :: r).
Proof.
  intros Hlo Hm Hk. induction n as [|n IH]; intros Hnone.
  - assert (m = 0%nat) by lia. subst. apply try_down_first; assumption.
  - destruct (Nat.eq_dec m (S n)) as [->|Hne].
    + apply try_down_first; assumption.
    + cbn [Re.try_down].
      destruct (Nat.ltb_spec (S n) lo) as [Hlt|_]; [lia|].
      rewrite (Hnone (S n)) by lia.
      apply IH; [lia|]. intros i Hi. apply Hnone. lia.
Qed.

Lemma sub_go_skip (re : Re.regex) (k : nat) (s : string) :
  Re.sub_go re k s = Re.sub_go re 0 (drop k s).
Proof.
  revert s. induction k as [|k IH]; intros s; [destruct s; reflexivity|].
  destruct s as [|a s]; [reflexivity|]. cbn [Re.sub_go drop]. apply IH.
Qed.

(** [re.sub] deletes a match at the start and goes on after it. *)
Lemma sub_go_match (re : Re.regex) (s : string) (lens : list nat) (k : nat) :
  Re.match_here re s = Some lens -> Re.total lens = S k ->
  Re.sub_go re 0 s = Re.sub_go re 0 (drop (S k) s).
Proof.
  intros Hm Ht. destruct s as [|a s]; [reflexivity|].
  cbn [Re.sub_go drop]. rewrite Hm. cbn [option_map]. rewrite Ht.
  apply sub_go_skip.
Qed.

Lemma total_ones (n : nat) : Re.total (repeat 1%nat n) = n.
Proof.
  induction n as [|n IH]; [reflexivity|].
  cbn [repeat Re.total fold_right Nat.add]. f_equal. exact IH.
Qed.

(** The two parts that [[^/]+/[^/]+] takes at the start of a name. *)
Lemma name_re_owner_repo (owner repo rest : string) :
  owner <> EmptyString -> repo <> EmptyString ->
  mem "/" owner = false -> mem "/" repo = false ->
  rest = EmptyString \/ (exists t, rest = String "/" t) ->
  Re.match_ name_re (owner ++ String "/" (repo ++ rest))
  = Some (owner ++ String "/" repo)%string.
Proof.
  intros Ho Hr Mo Mr Hrest.
  unfold Re.match_, name_re. cbn [Re.match_here].
  rewrite (run_notlit_stop "/" owner (String "/" (repo ++ rest)) Mo)
    by (right; eexists; reflexivity).
  erewrite try_down_first.
  2:{ apply length_nonempty. exact Ho. }
  2:{ pose proof (drop_app_length owner (String "/" (repo ++ rest)) 0) as D.
      rewrite Nat.add_0_r in D. rewrite D. cbn [drop Re.accepts].
      rewrite Ascii.eqb_refl.
      rewrite (run_notlit_stop "/" repo rest Mr Hrest).
      erewrite try_down_first;
        [reflexivity | apply length_nonempty; exact Hr | reflexivity]. }
  cbn [option_map Re.total fold_right]. f_equal.
  rewrite take_app_length. cbn [Nat.add take].
  rewrite (take_app_length repo rest 0). cbn [take].
  rewrite append_empty_r. reflexivity.
Qed.

(** The cleaning of a name with a host in front: everything up to the
    host goes, when no line break comes before it and no host after
    it. *)
Lemma sub_delete_host (prefix : string) (c : ascii) (t : string) :
  mem newline prefix = false -> Ascii.eqb c newline = false ->
  Re.search host_re t = None ->
  Re.sub_delete github_re (prefix ++ "github" ++ String c ("com/" ++ t)) = t.
Proof.
  intros Hp Hc Ht. unfold Re.sub_delete.
  set (x := ("github" ++ String c ("com/" ++ t))%string).
  assert (Hm : Re.match_here github_re (prefix ++ x)
               = Some (String.length prefix :: repeat 1%nat 11)).
  { change github_re with ((Re.Dot, Re.Star) :: host_re).
    cbn [Re.match_here]. rewrite (run_dot_app prefix x Hp).
    apply try_down_last; [lia|lia| |].
    - pose proof (drop_app_length prefix x 0) as D.
      rewrite Nat.add_0_r in D. rewrite D. cbn [drop].
      apply host_re_match. exact Hc.
    - intros i Hi.
      replace i with (String.length prefix + S (i - S (String.length prefix)))%nat
        by lia.
      rewrite drop_app_length. apply host_re_no_match_after. exact Ht. }
  rewrite (sub_go_match _ _ _ (String.length prefix + 10) Hm).
  2:{ cbn [Re.total fold_right]. fold (Re.total (repeat 1%nat 11)).
      rewrite total_ones. lia. }
  replace (S (String.length prefix + 10)) with (String.length prefix + 11)%nat
    by lia.
  rewrite drop_app_length. unfold x. cbn [String.append drop].
  apply sub_delete_without_host. exact Ht.
Qed.

(** C9 (as amended).  The sanitizer reads [foo/bar] in the address of an
    issue of that repository.  In general, for a name made of a prefix
    without a line break, the host [github.com/] (any character but a
    line break for its dot), an owner, a slash, a repository and a rest
    that is empty or starts with a slash, where no host occurs after the
    host: the sanitizer returns [owner/repo], whatever the prefix holds,
    other hosts included.  For every identifier without a slash it
    returns no value. *)
Theorem sanitizereponame_owner_repo :
  sanitizereponame "https://github.com/foo/bar/issues/1" = Some "foo/bar" /\
  (forall (prefix : string) (c : ascii) (owner repo rest : string),
     mem newline prefix = false -> Ascii.eqb c newline = false ->
     owner <> EmptyString -> repo <> EmptyString ->
     mem "/" owner = false -> mem "/" repo = false ->
     rest = EmptyString \/ (exists t, rest = String "/" t) ->
     Re.search host_re (owner ++ "/" ++ repo ++ rest) = None ->
     sanitizereponame
       (prefix ++ "github" ++ String c ("com/" ++ owner ++ "/" ++ repo ++ rest))
     = Some (owner ++ "/" ++ repo)%string) /\
  (forall name, mem "/" name = false -> sanitizereponame name = None).
Proof.
  split; [reflexivity|]. split.
  - intros prefix c owner repo rest Hp Hc Ho Hr Mo Mr Hrest Hhost.
    unfold sanitizereponame.
    rewrite (sub_delete_host prefix c _ Hp Hc Hhost).
    exact (name_re_owner_repo owner repo rest Ho Hr Mo Mr Hrest).
  - intros name H. unfold sanitizereponame, Re.match_.
    rewrite name_re_needs_slash; [reflexivity|].
    apply sub_go_mem. exact H.
Qed.

Lemma sanitizereponame_owner_repo_witness :
  sanitizereponame "http://www.github.com/nlitsme/githubtool/tree/master"
  = Some "nlitsme/githubtool" /\
  sanitizereponame "https://github.com/foo/bar/vendor/github.com/pkg/errors"
  = Some "pkg/errors" /\
  sanitizereponame "not-a-repo" = None.
Proof.
  split; [|split].
  - apply (proj1 (proj2 sanitizereponame_owner_repo)
             "http://www." "."%char "nlitsme" "githubtool" "/tree/master");
      try reflexivity; try discriminate.
    right. eexists. reflexivity.
  - apply (proj1 (proj2 sanitizereponame_owner_repo)
             "https://github.com/foo/bar/vendor/" "."%char "pkg" "errors" "");
      try reflexivity; try discriminate.
    left. reflexivity.
  - apply (proj2 (proj2 sanitizereponame_owner_repo)). reflexivity.
Defined.

(** C9 (as stated) fails: the host that counts is the last one of the
    name, not the leading one.  In the address of a vendored package of
    [foo/bar] the sanitizer reads [pkg/errors]; so the first two
    segments after a leading host are not what it returns in general. *)
Lemma sanitizereponame_later_host_wins :
  sanitizereponame "https://github.com/foo/bar/vendor/github.com/pkg/errors"
  = Some "pkg/errors" /\
  ~ (forall prefix owner repo rest : string,
       mem newline prefix = false ->
       owner <> EmptyString -> repo <> EmptyString ->
       mem "/" owner = false -> mem "/" repo = false ->
       rest = EmptyString \/ (exists t, rest = String "/" t) ->
       sanitizereponame (prefix ++ "github.com/" ++ owner ++ "/" ++ repo ++ rest)
       = Some (owner ++ "/" ++ repo)%string).
Proof.
  split; [reflexivity|]. intros H.
  specialize (H "https://" "foo" "bar" "/vendor/github.com/pkg/errors"
                eq_refl).
  assert (E : sanitizereponame
                ("https://" ++ "github.com/" ++ "foo" ++ "/" ++ "bar"
                 ++ "/vendor/github.com/pkg/errors")
              = Some ("foo" ++ "/" ++ "bar")%string).
  { apply H; try discriminate; try reflexivity.
    right. eexists. reflexivity. }
  vm_compute in E. discriminate.
Qed.

(** ** The outcomes of findlast *)

(** The loop raises only when an entry has no ["; "]. *)
Lemma findlast_loop_err (entries : list string) (last : option string)
  (e : exn) :
  findlast_loop entries last = Err e ->
  e = ValueError "not enough values to unpack (expected 2)".
Proof.
  revert last. induction entries as [|l entries IH]; intros last;
    [discriminate|].
  cbn [findlast_loop]. unfold split1.
  destruct (index_of "; " l); cbn [unpack2].
  - apply IH.
  - intros [= <-]. reflexivity.
Qed.

Lemma search_some (re : Re.regex) (s s' : string) (lens : list nat) :
  Re.search re s = Some (s', lens) -> Re.match_here re s' = Some lens.
Proof.
  induction s as [|a s IH]; cbn [Re.search].
  - destruct (Re.match_here re EmptyString) eqn:E; [|discriminate].
    intros [= <- <-]. exact E.
  - destruct (Re.match_here re (String a s)) eqn:E; [|exact IH].
    intros [= <- <-]. exact E.
Qed.

(** A literal piece of a pattern takes one character for each item. *)
Lemma match_lit_inv (p : string) (re : Re.regex) (s : string)
  (lens : list nat) :
  Re.match_here (Re.lit p ++ re) s = Some lens ->
  exists r, lens = repeat 1%nat (String.length p) ++ r /\
            Re.match_here re (drop (String.length p) s) = Some r.
Proof.
  revert s lens. induction p as [|c p IH]; intros s lens H.
  - exists lens. split; [reflexivity|exact H].
  - unfold Re.lit in H. cbn [list_ascii_of_string map app] in H.
    apply match_once_inv in H as [a [t [r0 [-> [_ [H ->]]]]]].
    destruct (IH t _ H) as [r [-> Hr]].
    exists r. split; [reflexivity|exact Hr].
Qed.

(** [int] reads every run of digits, and what it reads is not negative. *)
Lemma int_go_run (t : string) :
  forall (i : nat) (acc : Z),
    (i <= Re.run Re.Digit t)%nat -> (0 <= acc)%Z ->
    exists z, int_go acc (take i t) = Ok z /\ (0 <= z)%Z.
Proof.
  induction t as [|a t IH]; intros i acc Hi Hacc.
  - cbn [Re.run] in Hi. assert (i = 0%nat) by lia. subst.
    exists acc. split; [reflexivity|exact Hacc].
  - destruct i as [|i]; [exists acc; split; [reflexivity|exact Hacc]|].
    cbn [Re.run Re.accepts] in Hi.
    destruct (Re.is_digit a) eqn:D; [|lia].
    cbn [take int_go]. rewrite D. apply IH; lia.
Qed.

(** A run that is cut short is taken whole. *)
Lemma run_take (c : Re.cclass) (t : string) (i : nat) :
  (i <= Re.run c t)%nat -> Re.run c (take i t) = i.
Proof.
  revert i. induction t as [|a t IH]; intros i Hi.
  - cbn [Re.run] in Hi. assert (i = 0%nat) by lia. subst. reflexivity.
  - destruct i as [|i]; [reflexivity|].
    cbn [Re.run] in Hi. destruct (Re.accepts c a) eqn:A; [|lia].
    cbn [take Re.run]. rewrite A. f_equal. apply IH. lia.
Qed.

Lemma run_le_length (c : Re.cclass) (s : string) :
  (Re.run c s <= String.length s)%nat.
Proof.
  induction s as [|a s IH]; cbn [Re.run String.length]; [lia|].
  destruct (Re.accepts c a); lia.
Qed.

Lemma length_take_le (n : nat) (s : string) :
  (String.length (take n s) <= String.length s)%nat.
Proof.
  revert s. induction n as [|n IH]; intros [|a s]; cbn [take String.length];
    try lia.
  specialize (IH s). lia.
Qed.

(** The pieces of a string are not longer than the string. *)
Lemma split_go_length (sep : string) (s : string) :
  forall skip piece,
    In piece (split_go sep skip s) ->
    (String.length piece <= String.length s)%nat.
Proof.
  induction s as [|a s IH]; intros skip piece.
  - cbn [split_go In]. intros [<-|[]]. cbn [String.length]. lia.
  - cbn [split_go String.length]. destruct skip as [|k].
    + destruct (startswith sep (String a s)).
      * cbn [In]. intros [<-|H]; [cbn [String.length]; lia|].
        apply IH in H. lia.
      * destruct (split_go sep 0 s) as [|p ps] eqn:E.
        -- cbn [In]. intros [<-|[]]. cbn [String.length]. lia.
        -- cbn [In]. intros [<-|H].
           ++ cbn [String.length].
              assert (Hp : In p (split_go sep 0 s)) by (rewrite E; left; reflexivity).
              apply IH in Hp. lia.
           ++ assert (Hp : In piece (split_go sep 0 s)) by (rewrite E; right; exact H).
              apply IH in Hp. lia.
    + intros H. apply IH in H. lia.
Qed.

Lemma split1_length (sep s piece : string) :
  In piece (split1 sep s) -> (String.length piece <= String.length s)%nat.
Proof.
  unfold split1. destruct (index_of sep s) as [i|]; cbn [In].
  - intros [<-|[<-|[]]].
    + apply length_take_le.
    + rewrite length_drop. lia.
  - intros [<-|[]]. lia.
Qed.

(** The address that the loop keeps is a piece of an entry. *)
Lemma findlast_loop_length (bound : nat) (entries : list string) :
  (forall l, In l entries -> (String.length l <= bound)%nat) ->
  forall last url,
    (forall u, last = Some u -> (String.length u <= bound)%nat) ->
    findlast_loop entries last = Ok (Some url) ->
    (String.length url <= bound)%nat.
Proof.
  induction entries as [|l entries IH]; intros Hall last url Hlast.
  - cbn [findlast_loop]. intros [= ->]. apply Hlast. reflexivity.
  - cbn [findlast_loop].
    destruct (split1 "; " l) as [|u [|r [|x xs]]] eqn:E; cbn [unpack2];
      try discriminate.
    apply IH.
    + intros l' Hl'. apply Hall. right. exact Hl'.
    + intros u' Hu'.
      destruct (String.eqb r rel_last).
      * injection Hu' as <-.
        assert (Hin : In u (split1 "; " l)) by (rewrite E; left; reflexivity).
        apply split1_length in Hin.
        specialize (Hall l (or_introl eq_refl)). lia.
      * apply Hlast. exact Hu'.
Qed.

(** [re.search] returns a match in the rest of its subject. *)
Lemma search_length (re : Re.regex) (s s' : string) (lens : list nat) :
  Re.search re s = Some (s', lens) ->
  (String.length s' <= String.length s)%nat.
Proof.
  induction s as [|a s IH]; cbn [Re.search].
  - destruct (Re.match_here re EmptyString); [|discriminate].
    intros [= <- _]. lia.
  - destruct (Re.match_here re (String a s)).
    + intros [= <- _]. lia.
    + intros H. apply IH in H. cbn [String.length]. lia.
Qed.

(** The digits after [&page=] make a number, unless there are more of
    them than [int] converts. *)
Lemma page_number_read (s : string) (m : string * list nat) :
  Re.search page_re s = Some m ->
  (exists n, int (Re.group m 6 1) = Ok n /\ (0 <= n)%Z) \/
  (int (Re.group m 6 1) =
   Err (ValueError "Exceeds the limit (4300 digits) for integer string conversion") /\
   (int_max_str_digits < Z.of_nat (String.length s))%Z).
Proof.
  destruct m as [s' lens]. intros H.
  pose proof (search_length _ _ _ _ H) as Hlen.
  apply search_some in H.
  unfold page_re in H. apply match_lit_inv in H as [r [-> H]].
  cbn [String.length Re.match_here] in H.
  apply try_down_some in H as [i [r' [-> [Hi K]]]]. injection K as <-.
  cbn [Re.group String.length repeat app skipn firstn Re.total fold_right
       Nat.add].
  rewrite Nat.add_0_r. unfold int.
  pose proof (run_le_length Re.Digit (drop 6 s')) as Hrun.
  rewrite length_drop in Hrun.
  destruct (drop 6 s') as [|a t] eqn:D; [cbn [Re.run] in Hi; lia|].
  destruct i as [|i]; [lia|]. cbn [take is_empty].
  change (String a (take i t)) with (take (S i) (String a t)).
  rewrite run_take by lia.
  destruct (int_max_str_digits <? Z.of_nat (S i))%Z eqn:Lim.
  - right. split; [reflexivity|]. apply Z.ltb_lt in Lim. lia.
  - left. apply int_go_run; lia.
Qed.

(** Every outcome of [findlast]. *)
Lemma findlast_outcome (link : option string) :
  findlast link = Ok None \/
  (exists n, findlast link = Ok (Some n) /\ (0 <= n)%Z) \/
  findlast link = Err (UnboundLocalError "last") \/
  findlast link = Err (ValueError "not enough values to unpack (expected 2)") \/
  (findlast link =
   Err (ValueError "Exceeds the limit (4300 digits) for integer string conversion") /\
   exists header, link = Some header /\
     (int_max_str_digits < Z.of_nat (String.length header))%Z).
Proof.
  unfold findlast. destruct link as [link|]; [|left; reflexivity].
  destruct (is_empty link); [left; reflexivity|].
  destruct (findlast_loop (split ", " link) None) as [[last|]|e] eqn:E.
  - destruct (is_empty last); [left; reflexivity|].
    destruct (Re.search page_re last) as [m|] eqn:S; [|left; reflexivity].
    destruct (page_number_read _ _ S) as [[n [-> Hn]]|[-> Hlim]].
    + right; left. exists n. split; [reflexivity|exact Hn].
    + right; right; right; right. split; [reflexivity|].
      exists link. split; [reflexivity|].
      assert (Hlast : (String.length last <= String.length link)%nat).
      { apply (findlast_loop_length _ (split ", " link)) with (last := None);
          [|discriminate|exact E].
        intros l Hl. apply (split_go_length _ _ _ _ Hl). }
      lia.
  - right; right; left. reflexivity.
  - right; right; right; left. rewrite (findlast_loop_err _ _ _ E). reflexivity.
Qed.

(** X13.  [findlast] raises in three ways only: [UnboundLocalError] for
    the local [last], [ValueError] for an entry without ["; "], and the
    [ValueError] of [int] for a page number of more than 4300 digits,
    which needs a header of more than 4300 characters.  On a header of
    at most 4300 characters the conversion of the page digits never
    fails. *)
Theorem findlast_errors (link : option string) (e : exn) :
  findlast link = Err e ->
  e = UnboundLocalError "last" \/
  e = ValueError "not enough values to unpack (expected 2)" \/
  (e = ValueError "Exceeds the limit (4300 digits) for integer string conversion" /\
   exists header, link = Some header /\
     (int_max_str_digits < Z.of_nat (String.length header))%Z).
Proof.
  intros H.
  destruct (findlast_outcome link) as [O|[[n [O _]]|[O|[O|[O Hlim]]]]];
    rewrite O in H; try discriminate; injection H as <-; auto.
Qed.

Lemma findlast_errors_witness :
  ValueError "not enough values to unpack (expected 2)"
  = UnboundLocalError "last" \/
  ValueError "not enough values to unpack (expected 2)"
  = ValueError "not enough values to unpack (expected 2)" \/
  (ValueError "not enough values to unpack (expected 2)"
   = ValueError "Exceeds the limit (4300 digits) for integer string conversion" /\
   exists header, Some "<https://x/?q=a&page=7>" = Some header /\
     (int_max_str_digits < Z.of_nat (String.length header))%Z).
Proof.
  apply (findlast_errors (Some "<https://x/?q=a&page=7>")). reflexivity.
Defined.

(** The third failure is met: a page number of 4300 digits is read, one
    of 4301 digits is refused. *)
Example findlast_number_too_long :
  findlast (Some (Sample2.long_page_header 4301))
  = Err (ValueError "Exceeds the limit (4300 digits) for integer string conversion") /\
  match findlast (Some (Sample2.long_page_header 4300)) with
  | Ok (Some n) => (0 < n)%Z
  | _ => False
  end.
Proof.
  split; vm_compute; reflexivity.
Qed.

(** X14.  A page number that [findlast] returns is never negative. *)
Theorem findlast_page_not_negative (link : option string) (n : Z) :
  findlast link = Ok (Some n) -> (0 <= n)%Z.
Proof.
  intros H.
  destruct (findlast_outcome link) as [O|[[n' [O Hn]]|[O|[O|[O _]]]]];
    rewrite O in H; try discriminate. injection H as <-. exact Hn.
Qed.

Lemma findlast_page_not_negative_witness : (0 <= 34)%Z.
Proof.
  apply (findlast_page_not_negative
           (Some ("<https://api.github.com/search/code?q=x&page=34>; "
                  ++ rel_last)%string)).
  reflexivity.
Defined.

(** X15.  Among the entries of a header, the last one whose relation is
    [rel="last"] decides: the loop ends with its address, whatever the
    entries before it are, other [rel="last"] entries included, as long
    as every entry has the separator ["; "]. *)
Theorem findlast_loop_last_wins (before after : list string)
  (entry url : string) (last : option string) :
  (forall l, In l before -> exists u r, split1 "; " l = [u; r]) ->
  split1 "; " entry = [url; rel_last] ->
  (forall l, In l after ->
     exists u r, split1 "; " l = [u; r] /\ r <> rel_last) ->
  findlast_loop (before ++ entry :: after) last = Ok (Some url).
Proof.
  intros Hb He Ha. revert last.
  induction before as [|l before IH]; intros last.
  - cbn [app findlast_loop]. rewrite He. cbn [unpack2].
    rewrite String.eqb_refl. apply findlast_loop_no_last. exact Ha.
  - destruct (Hb l (or_introl eq_refl)) as [u [r Hl]].
    cbn [app findlast_loop]. rewrite Hl. cbn [unpack2].
    apply IH. intros l' Hin. apply Hb. right. exact Hin.
Qed.

Lemma findlast_loop_last_wins_witness :
  findlast_loop
    [("<https://x/?q=a&page=9>; " ++ rel_last)%string;
     ("<https://x/?q=a&page=5>; " ++ rel_last)%string;
     ("<https://x/?q=a&page=1>; rel=" ++ dq ++ "first" ++ dq)%string]
    None
  = Ok (Some "<https://x/?q=a&page=5>").
Proof.
  apply (findlast_loop_last_wins
           [("<https://x/?q=a&page=9>; " ++ rel_last)%string]
           [("<https://x/?q=a&page=1>; rel=" ++ dq ++ "first" ++ dq)%string]
           ("<https://x/?q=a&page=5>; " ++ rel_last)%string).
  - intros l [<-|[]]. eexists; eexists; reflexivity.
  - reflexivity.
  - intros l [<-|[]]. eexists; eexists; split; [reflexivity|discriminate].
Defined.

(** ** Printing only adds lines *)

Lemma appends_ret {A : Type} (a : A) : appends (ret a).
Proof. intros w. exists []. cbn. rewrite app_nil_r. reflexivity. Qed.

Lemma appends_lift {A : Type} (r : result A) : appends (lift r).
Proof. intros w. exists []. cbn. rewrite app_nil_r. reflexivity. Qed.

Lemma appends_print (o : output) : appends (print o).
Proof. intros w. exists [o]. reflexivity. Qed.

Lemma appends_bind {A B : Type} (m : M A) (f : A -> M B) :
  appends m -> (forall a, appends (f a)) -> appends (bind m f).
Proof.
  intros Hm Hf w. unfold bind. destruct (Hm w) as [out1 H1].
  destruct (m w) as [[a|e] w1]; cbn [snd] in *.
  - destruct (Hf a w1) as [out2 H2]. exists (out1 ++ out2).
    rewrite H2, H1, app_assoc. reflexivity.
  - exists out1. exact H1.
Qed.

Lemma appends_for_each {A : Type} (l : list A) (body : A -> M unit) :
  (forall x, appends (body x)) -> appends (for_each l body).
Proof.
  intros H. induction l as [|x l IH]; cbn [for_each].
  - apply appends_ret.
  - apply appends_bind; [apply H | intros _; exact IH].
Qed.

Lemma appends_print_fmt (fmt : string) (args : list json) :
  appends (print_fmt fmt args).
Proof.
  apply appends_bind; [apply appends_lift | intros _; apply appends_print].
Qed.

Ltac appends_steps :=
  repeat first
    [ apply appends_print_fmt
    | apply appends_print
    | apply appends_lift
    | apply appends_ret
    | apply appends_bind; [|intros ?] ].

Lemma appends_printresult (args : Args) (domain : string) (items : json) :
  appends (printresult args domain items).
Proof.
  unfold printresult. apply appends_bind; [apply appends_lift|].
  intros l. apply appends_for_each. intros item.
  unfold printresult_item.
  repeat match goal with
         | |- appends (if ?b then _ else _) => destruct b
         end; appends_steps.
Qed.

(** ** Searches in one page, and searches that fail on the way *)

Lemma seq_from (n m : nat) : seq n m = map (Nat.add n) (seq 0 m).
Proof.
  revert n. induction m as [|m IH]; intros n; [reflexivity|].
  cbn [seq map]. rewrite Nat.add_0_r. f_equal.
  rewrite (IH (S n)), <- seq_shift, map_map. apply map_ext. intros i. lia.
Qed.

Lemma range_split (a k b : Z) :
  (a <= k < b)%Z -> range a b = range a k ++ k :: range (k + 1) b.
Proof.
  intros H. unfold range.
  replace (Z.to_nat (b - a))
    with (Z.to_nat (k - a) + S (Z.to_nat (b - (k + 1))))%nat by lia.
  rewrite seq_app, map_app. f_equal. rewrite seq_from, map_map.
  cbn [seq map]. f_equal; [lia|].
  rewrite <- seq_shift, !map_map. apply map_ext. intros i. lia.
Qed.

Section SearchFacts.

Variable L : Library.
Variable api : GithubApi.
Variable args : Args.

(** The run of [querygithub] up to its test of [lastpage], when the
    first page is served: one request sent, the count line and the lines
    of the page printed. *)
Lemma querygithub_first_page (url0 : string) (r1 : response) (js1 : json)
  (lastpage : option Z) (n : Z) (w : world) :
  getapi api (search_domain args ++ "_search_url")%string = Ok (JStr url0) ->
  serves_page L args
    (page_request api (slice_to url0 (find "?" url0)) (query args) 1) r1 js1 ->
  findlast (header_get "Link" (headers r1)) = Ok lastpage ->
  getjs js1 "total_count" = Ok (JNum n) ->
  exists w1 out,
    sent w1 = sent w ++
      [page_request api (slice_to url0 (find "?" url0)) (query args) 1] /\
    printed w1 = printed w ++
      Printf "FOUND: %d items in %d pages" [JNum n; JNum (or_one lastpage)]
      :: out /\
    querygithub L api args w =
    match lastpage with
    | None => ret tt
    | Some m =>
        if (m =? 0)%Z || negb (all args) then ret tt
        else for_each (range 2 (m + 1)) (querygithub_page L api args)
    end w1.
Proof.
  intros Hurl [Hget [Hst [Hdec [items [Hitems Hprint]]]]] Hlast Htotal.
  set (rq := page_request api (slice_to url0 (find "?" url0)) (query args) 1).
  set (w2 := {| sent := sent w ++ [rq];
                printed := printed w ++
                  [Printf "FOUND: %d items in %d pages"
                     [JNum n; JNum (or_one lastpage)]] |}).
  pose proof (silent_printresult args (where_ args) items w2) as Hsil.
  destruct (appends_printresult args (where_ args) items w2) as [out Hout].
  specialize (Hprint w2).
  destruct (printresult args (where_ args) items w2) as [res w3] eqn:E3.
  cbn [fst snd] in *. subst res.
  exists w3, out. split; [exact Hsil|]. split.
  - rewrite Hout. unfold w2. cbn [printed]. rewrite <- app_assoc. reflexivity.
  - unfold querygithub, bind. rewrite (query_address L api args url0 1 w Hurl).
    rewrite (get_served L api _ _ w r1 js1 (Hget _) Hst Hdec).
    unfold lift at 1. rewrite Hlast.
    unfold lift at 1. rewrite Htotal.
    match goal with
    | |- context [print_fmt ?f ?a ?W] =>
        change (print_fmt f a W) with (@Ok unit tt, w2)
    end.
    cbv iota. unfold lift at 1. rewrite Hitems, E3. reflexivity.
Qed.

(** X16.  Without [--all], or when the first response names no last
    page (no [Link] header, or a last page 0), [querygithub] stops after
    the first page: it sends that one request, and the line it prints
    first counts [lastpage or 1] pages, so one page when there is no last
    page. *)
Theorem querygithub_single_page (url0 : string) (r1 : response) (js1 : json)
  (lastpage : option Z) (n : Z) (w : world) :
  getapi api (search_domain args ++ "_search_url")%string = Ok (JStr url0) ->
  serves_page L args
    (page_request api (slice_to url0 (find "?" url0)) (query args) 1) r1 js1 ->
  findlast (header_get "Link" (headers r1)) = Ok lastpage ->
  getjs js1 "total_count" = Ok (JNum n) ->
  all args = false \/ lastpage = None \/ lastpage = Some 0%Z ->
  exists w' out,
    querygithub L api args w = (Ok tt, w') /\
    sent w' = sent w ++
      [page_request api (slice_to url0 (find "?" url0)) (query args) 1] /\
    printed w' = printed w ++
      Printf "FOUND: %d items in %d pages" [JNum n; JNum (or_one lastpage)]
      :: out.
Proof.
  intros Hurl H1 Hlast Htotal Hone.
  destruct (querygithub_first_page url0 r1 js1 lastpage n w Hurl H1 Hlast Htotal)
    as [w1 [out [Hs [Hp Hrun]]]].
  exists w1, out. split; [|split; assumption].
  rewrite Hrun. destruct lastpage as [m|]; [|reflexivity].
  destruct Hone as [Ha|[Hn|Hz]].
  - rewrite Ha. cbn [negb]. rewrite orb_true_r. reflexivity.
  - discriminate.
  - injection Hz as ->. reflexivity.
Qed.

(** A page on which the transport fails ends [querygithub_page] with
    the failure, after the request was sent. *)
Lemma querygithub_page_fails (url0 : string) (p : Z) (e : exn) (w : world) :
  getapi api (search_domain args ++ "_search_url")%string = Ok (JStr url0) ->
  client_get L (sent w)
    (page_request api (slice_to url0 (find "?" url0)) (query args) p) = Err e ->
  querygithub_page L api args p w =
  (Err e,
   after_request
     (page_request api (slice_to url0 (find "?" url0)) (query args) p) w).
Proof.
  intros Hurl He. unfold querygithub_page, bind.
  rewrite (query_address L api args url0 p w Hurl).
  unfold get, bind, session_get. unfold page_request in He. rewrite He.
  reflexivity.
Qed.

(** X17.  A failure on page [k] ends the whole search: when the pages
    before [k] are served and the transport fails on page [k] with [e],
    [querygithub] raises [e] after the requests for the pages 1 to [k],
    and sends nothing for the pages after [k]. *)
Theorem querygithub_page_failure_aborts (url0 : string) (N k n : Z)
  (r1 : response) (js1 : json) (e : exn) (w : world) :
  all args = true ->
  getapi api (search_domain args ++ "_search_url")%string = Ok (JStr url0) ->
  serves_page L args
    (page_request api (slice_to url0 (find "?" url0)) (query args) 1) r1 js1 ->
  findlast (header_get "Link" (headers r1)) = Ok (Some N) ->
  getjs js1 "total_count" = Ok (JNum n) ->
  (2 <= k <= N)%Z ->
  (forall p, (2 <= p < k)%Z ->
     exists r js,
       serves_page L args
         (page_request api (slice_to url0 (find "?" url0)) (query args) p) r js) ->
  (forall hist,
     client_get L hist
       (page_request api (slice_to url0 (find "?" url0)) (query args) k)
     = Err e) ->
  exists w',
    querygithub L api args w = (Err e, w') /\
    sent w' = sent w ++
      map (page_request api (slice_to url0 (find "?" url0)) (query args))
          (range 1 (k + 1)).
Proof.
  intros Hall Hurl H1 Hlast Htotal Hk Hbefore Hfail.
  destruct (querygithub_first_page url0 r1 js1 (Some N) n w Hurl H1 Hlast Htotal)
    as [w1 [out [Hs [_ Hrun]]]].
  rewrite Hrun, Hall.
  destruct (N =? 0)%Z eqn:E0; [apply Z.eqb_eq in E0; lia|]. cbn [orb negb].
  rewrite (range_split 2 k (N + 1)) by lia. rewrite for_each_app.
  assert (Hserved : forall p, In p (range 2 k) ->
            exists r js,
              serves_page L args
                (page_request api (slice_to url0 (find "?" url0)) (query args) p)
                r js).
  { intros p Hp. apply in_range in Hp. apply Hbefore. exact Hp. }
  destruct (querygithub_pages_served L api args url0 (range 2 k) Hurl Hserved w1)
    as [w2 [E2 S2]].
  rewrite E2. cbn [for_each]. unfold bind at 1.
  rewrite (querygithub_page_fails url0 k e w2 Hurl (Hfail _)).
  eexists. split; [reflexivity|].
  unfold after_request. cbn [sent]. rewrite S2, Hs.
  rewrite (range_split 1 k (k + 1)) by lia.
  rewrite (range_cons 1 k) by lia.
  replace (range (k + 1) (k + 1)) with (@nil Z)
    by (unfold range; rewrite Z.sub_diag; reflexivity).
  cbn [app map]. rewrite map_app. cbn [map].
  rewrite <- !app_assoc. reflexivity.
Qed.

End SearchFacts.

Lemma sample_first_page_served :
  serves_page Sample.search_library Sample2.first_page_args
    (page_request Sample.api "https://api.github.com/search/code" (Some "zip") 1)
    Sample.search_page Sample.search_body.
Proof.
  split; [intros hist; reflexivity|].
  split; [reflexivity|]. split; [reflexivity|].
  eexists. split; [reflexivity|]. intros w. reflexivity.
Qed.

Lemma querygithub_single_page_witness :
  exists w' out,
    querygithub Sample.search_library Sample.api Sample2.first_page_args
      Sample.empty_world = (Ok tt, w') /\
    sent w' =
      [page_request Sample.api "https://api.github.com/search/code" (Some "zip") 1] /\
    printed w' =
      Printf "FOUND: %d items in %d pages" [JNum 250; JNum 3] :: out.
Proof.
  apply (querygithub_single_page Sample.search_library Sample.api
           Sample2.first_page_args
           "https://api.github.com/search/code?q={query}{&page,per_page,sort,order}"
           Sample.search_page Sample.search_body (Some 3%Z) 250
           Sample.empty_world).
  - reflexivity.
  - apply sample_first_page_served.
  - reflexivity.
  - reflexivity.
  - left. reflexivity.
Defined.

Lemma sample_third_page_fails_served (p : Z) :
  (1 <= p < 3)%Z ->
  serves_page Sample2.third_page_fails Sample.search_args
    (page_request Sample.api "https://api.github.com/search/code" (Some "zip") p)
    Sample.search_page Sample.search_body.
Proof.
  intros Hp. assert (Hc : p = 1%Z \/ p = 2%Z) by lia.
  destruct Hc as [->| ->];
    (split; [intros hist; reflexivity|];
     split; [reflexivity|]; split; [reflexivity|];
     eexists; split; [reflexivity|]; intros w; reflexivity).
Qed.

Lemma querygithub_page_failure_aborts_witness :
  exists w',
    querygithub Sample2.third_page_fails Sample.api Sample.search_args
      Sample.empty_world
    = (Err (LibraryError "ServerDisconnectedError"), w') /\
    sent w' =
      map (page_request Sample.api "https://api.github.com/search/code" (Some "zip"))
          [1; 2; 3]%Z.
Proof.
  apply (querygithub_page_failure_aborts Sample2.third_page_fails Sample.api
           Sample.search_args
           "https://api.github.com/search/code?q={query}{&page,per_page,sort,order}"
           3 3 250 Sample.search_page Sample.search_body
           (LibraryError "ServerDisconnectedError") Sample.empty_world).
  - reflexivity.
  - reflexivity.
  - apply sample_third_page_fails_served. lia.
  - reflexivity.
  - reflexivity.
  - lia.
  - intros p Hp. exists Sample.search_page, Sample.search_body.
    apply sample_third_page_fails_served. lia.
  - intros hist. reflexivity.
Defined.

(** ** The listing of a user's repositories *)

Lemma silent_printrepolist (jslist : json) (args : Args) :
  silent (printrepolist jslist args).
Proof.
  unfold printrepolist. apply silent_bind; [apply silent_lift|].
  intros l. apply silent_for_each. intros repo.
  unfold printrepolist_item.
  destruct (all args); [apply silent_printrepoinfo|].
  apply silent_bind; [apply silent_lift|]. intros fork.
  destruct (negb (truthy fork)); [apply silent_printrepoinfo|apply silent_ret].
Qed.

Section ListingFacts.

Variable L : Library.
Variable api : GithubApi.
Variable args : Args.
Variable user : string.

Hypothesis template :
  getapi api "user_repositories_url" = Ok (JStr user_repositories_template).
Hypothesis no_brace : mem "{" user = false.

(** [list] is [get] on the address of the user's repositories. *)
Lemma list_get (p : Z) (w : world) :
  list_ L api user p w =
  get L api (users_address ++ user ++ "/repos")
    [("per_page", JNum 100); ("page", JNum p)] w.
Proof.
  rewrite (list_unfold L api user p w template). f_equal.
  erewrite slice_to_find_some.
  2:{ rewrite (index_of_char_app "{" users_address _ eq_refl).
      rewrite (index_of_char_app "{" user _ no_brace). reflexivity. }
  cbn [option_map].
  rewrite (take_app_length users_address), (take_app_length user). reflexivity.
Qed.



(** The run of [listrepos] up to its test of [lastpage]. *)
Lemma listrepos_first_page (r1 : response) (js1 : json)
  (lastpage : option Z) (w : world) :
  serves_listing L args
    (list_request api (users_address ++ user ++ "/repos") 1) r1 js1 ->
  findlast (header_get "Link" (headers r1)) = Ok lastpage ->
  exists w1,
    sent w1 = sent w ++
      [list_request api (users_address ++ user ++ "/repos") 1] /\
    listrepos L api user args w =
    match lastpage with
    | None => ret tt
    | Some m =>
        if (m =? 0)%Z || negb (all args) then ret tt
        else for_each (range 2 (m + 1)) (listrepos_page L api user args)
    end w1.
Proof.
  intros [Hget [Hst [Hdec Hprint]]] Hlast.
  unfold listrepos, bind. rewrite list_get.
  rewrite (get_served L api _ _ w r1 js1 (Hget _) Hst Hdec).
  unfold lift at 1. rewrite Hlast.
  set (w0 := {| sent := _; printed := printed w |}).
  specialize (Hprint w0).
  pose proof (silent_printrepolist js1 args w0) as Hsil.
  destruct (printrepolist js1 args w0) as [res w1].
  cbn [fst snd] in *. subst res. exists w1. split; [exact Hsil|reflexivity].
Qed.

End ListingFacts.


(** X19.  For a user name without a brace and the built-in template of
    [user_repositories_url]: without [--all], or when the first response
    names no last page, [listrepos] sends the request for the first page
    and no other. *)
Theorem listrepos_single_page (L : Library) (api : GithubApi) (args : Args)
  (user : string) (r1 : response) (js1 : json) (lastpage : option Z)
  (w : world) :
  getapi api "user_repositories_url" = Ok (JStr user_repositories_template) ->
  mem "{" user = false ->
  serves_listing L args
    (list_request api (users_address ++ user ++ "/repos") 1) r1 js1 ->
  findlast (header_get "Link" (headers r1)) = Ok lastpage ->
  all args = false \/ lastpage = None \/ lastpage = Some 0%Z ->
  exists w',
    listrepos L api user args w = (Ok tt, w') /\
    sent w' = sent w ++
      [list_request api (users_address ++ user ++ "/repos") 1].
Proof.
  intros Htemplate Hbrace H1 Hlast Hone.
  destruct (listrepos_first_page L api args user Htemplate Hbrace
              r1 js1 lastpage w H1 Hlast) as [w1 [S1 Hrun]].
  exists w1. split; [|exact S1].
  rewrite Hrun. destruct lastpage as [m|]; [|reflexivity].
  destruct Hone as [Ha|[Hn|Hz]].
  - rewrite Ha. cbn [negb]. rewrite orb_true_r. reflexivity.
  - discriminate.
  - injection Hz as ->. reflexivity.
Qed.

Lemma sample_listing_served (args : Args) (p : Z) :
  (forall w, fst (printrepolist Sample2.listing_body args w) = Ok tt) ->
  serves_listing Sample2.listing_library args
    (list_request Sample.api "https://api.github.com/users/itsme/repos" p)
    Sample2.listing_page Sample2.listing_body.
Proof.
  intros H. split; [intros hist; reflexivity|].
  split; [reflexivity|]. split; [reflexivity|]. exact H.
Qed.


Lemma listrepos_single_page_witness :
  exists w',
    listrepos Sample2.listing_library Sample.api "itsme" Sample.no_args
      Sample.empty_world = (Ok tt, w') /\
    sent w' =
      [list_request Sample.api "https://api.github.com/users/itsme/repos" 1].
Proof.
  apply (listrepos_single_page Sample2.listing_library Sample.api
           Sample.no_args "itsme"
           Sample2.listing_page Sample2.listing_body (Some 3%Z)
           Sample.empty_world).
  - reflexivity.
  - reflexivity.
  - apply sample_listing_served. intros w. reflexivity.
  - reflexivity.
  - left. reflexivity.
Defined.

(** X20.  Without [--all], [printrepolist] leaves the forks out: on a
    list of repositories that all have a [fork] field, it prints exactly
    what printing the repositories that are no forks gives, in the same
    order. *)
Theorem printrepolist_skips_forks (args : Args) (l : list json) :
  all args = false ->
  (forall repo, In repo l -> exists fork, subscript repo "fork" = Ok fork) ->
  forall w,
    printrepolist (JArr l) args w =
    for_each (filter (fun repo => negb (is_fork repo)) l)
      (fun repo => printrepoinfo repo "name" args) w.
Proof.
  intros Hall Hfork w. unfold printrepolist, bind at 1, lift. cbn [iterate].
  revert w. induction l as [|repo l IH]; intros w; [reflexivity|].
  destruct (Hfork repo (or_introl eq_refl)) as [fork Hf].
  assert (IH' := IH (fun r Hr => Hfork r (or_intror Hr))).
  cbn [for_each filter]. unfold is_fork at 1. rewrite Hf.
  unfold bind at 1. unfold printrepolist_item at 1. rewrite Hall.
  unfold bind at 1, lift. rewrite Hf.
  destruct (truthy fork); cbn [negb].
  - unfold ret. apply IH'.
  - cbn [for_each]. unfold bind.
    destruct (printrepoinfo repo "name" args w) as [[u|e] w1];
      [apply IH' | reflexivity].
Qed.

Lemma printrepolist_skips_forks_witness :
  printrepolist Sample2.listing_body Sample.no_args Sample.empty_world =
  (Ok tt,
   {| sent := [];
      printed := [Printf "%10d %-25s %s" [JNum 7; JStr "tool"; JStr "a tool"]] |}).
Proof.
  unfold Sample2.listing_body.
  rewrite (printrepolist_skips_forks Sample.no_args _ eq_refl).
  - reflexivity.
  - intros repo [<-|[<-|[]]]; eexists; reflexivity.
Defined.

(** X21.  For a search domain that [printresult] has no format for
    (commits, for one), every item is printed as it is: printing a list
    of items never fails, and prints the items in their order. *)
Theorem printresult_unformatted_domain (args : Args) (domain : string)
  (l : list json) (w : world) :
  formatted_domain domain = false ->
  printresult args domain (JArr l) w =
  (Ok tt, {| sent := sent w; printed := printed w ++ map PrintValue l |}).
Proof.
  unfold formatted_domain. intros H.
  apply orb_false_iff in H as [H Hu]. apply orb_false_iff in H as [H Hr].
  apply orb_false_iff in H as [Hc Hi].
  unfold printresult, bind at 1, lift. cbn [iterate].
  revert w. induction l as [|item l IH]; intros w.
  - destruct w. cbn. rewrite app_nil_r. reflexivity.
  - cbn [for_each]. unfold bind at 1. unfold printresult_item at 1.
    rewrite Hc, Hi, Hr, Hu. unfold print at 1. rewrite IH.
    cbn [sent printed map]. rewrite <- app_assoc. reflexivity.
Qed.

Lemma printresult_unformatted_domain_witness :
  printresult Sample2.commit_args "commit"
    (JArr [JObj [("sha", JStr "abc")]; JNull]) Sample.empty_world =
  (Ok tt,
   {| sent := [];
      printed := [PrintValue (JObj [("sha", JStr "abc")]); PrintValue JNull] |}).
Proof.
  apply (printresult_unformatted_domain Sample2.commit_args "commit"
           [JObj [("sha", JStr "abc")]; JNull] Sample.empty_world).
  reflexivity.
Defined.

(** X22.  A batch in which no name parses sends no request at all: it
    reports every name, in order, and completes. *)
Theorem inforepos_nothing_parses (L : Library) (api : GithubApi) (args : Args)
  (w : world) :
  (forall name, In name (REPOS args) -> sanitizereponame name = None) ->
  inforepos L api args w =
  (Ok tt,
   {| sent := sent w;
      printed := printed w ++
        map (fun name =>
               Printf "failed to parse repository name from '%s'" [JStr name])
            (REPOS args) |}).
Proof.
  unfold inforepos. generalize (REPOS args) as names. intros names.
  revert w. induction names as [|name names IH]; intros w H.
  - destruct w. cbn. rewrite app_nil_r. reflexivity.
  - cbn [for_each]. unfold bind at 1. unfold inforepos_step at 1.
    rewrite (H name (or_introl eq_refl)).
    change (print_fmt "failed to parse repository name from '%s'" [JStr name] w)
      with (@Ok unit tt, reported name w).
    cbv beta iota. rewrite IH by (intros n Hn; apply H; right; exact Hn).
    unfold reported. cbn [sent printed map]. rewrite <- app_assoc. reflexivity.
Qed.

Lemma inforepos_nothing_parses_witness :
  inforepos Sample.cd_only_library Sample.api
    {| auth := None; verbose := false; urls := false; all := false;
       where_ := "code"; query := None; REPOS := ["not-a-repo"; "/x/y"] |}
    Sample.empty_world =
  (Ok tt,
   {| sent := [];
      printed :=
        [Printf "failed to parse repository name from '%s'" [JStr "not-a-repo"];
         Printf "failed to parse repository name from '%s'" [JStr "/x/y"]] |}).
Proof.
  apply (inforepos_nothing_parses Sample.cd_only_library Sample.api
           {| auth := None; verbose := false; urls := false; all := false;
              where_ := "code"; query := None;
              REPOS := ["not-a-repo"; "/x/y"] |} Sample.empty_world).
  intros name [<-|[<-|[]]]; reflexivity.
Defined.

(** ** More on getjs *)

(** A path that runs into a value that is no dict raises [TypeError]. *)
Lemma getjs_non_mapping (n : nat) :
  forall (path : string) (J : json) pre seg post v,
    (String.length path < n)%nat ->
    split "." path = pre ++ seg :: post ->
    lookup_path pre J = Some v ->
    (forall m, v <> JObj m) ->
    exists what, getjs J path = Err (TypeError what).
Proof.
  induction n as [|n IH]; intros path J pre seg post v Hlen Hsplit Hpre Hv;
    [lia|].
  rewrite getjs_step.
  destruct (index_of "." path) as [i|] eqn:E.
  - rewrite (split_at_dot _ _ E) in Hsplit.
    assert (Hrest : (String.length (drop (i + 1) path) < n)%nat).
    { rewrite length_drop. apply index_of_dot_lt in E. lia. }
    destruct pre as [|p pre].
    + injection Hsplit as <- _. injection Hpre as ->.
      destruct v as [| | | | |m]; cbn [subscript];
        try (eexists; reflexivity).
      exfalso. apply (Hv m). reflexivity.
    + injection Hsplit as <- Hsplit. cbn [lookup_path] in Hpre.
      destruct J as [| | | | |m0]; try discriminate.
      cbn [subscript].
      destruct (assoc (take i path) m0) as [v'|]; [|discriminate].
      apply (IH _ v' pre seg post v Hrest Hsplit Hpre Hv).
  - rewrite (split_no_dot _ E) in Hsplit.
    destruct pre as [|p pre].
    + injection Hsplit as <- _. injection Hpre as ->.
      destruct v as [| | | | |m]; cbn [subscript];
        try (eexists; reflexivity).
      exfalso. apply (Hv m). reflexivity.
    + injection Hsplit as _ Hsplit. destruct pre; discriminate.
Qed.

(** X23.  When the segments before a segment of the path lead to a
    value that is not a mapping (a number, a string, a list, [None]),
    [getjs] raises [TypeError], not [KeyError]: the path goes through a
    leaf. *)
Theorem getjs_through_leaf (J : json) (P : string) (pre : list string)
  (seg : string) (post : list string) (v : json) :
  split "." P = pre ++ seg :: post ->
  lookup_path pre J = Some v ->
  (forall m, v <> JObj m) ->
  exists what, getjs J P = Err (TypeError what).
Proof.
  apply (getjs_non_mapping (S (String.length P))). lia.
Qed.

Lemma getjs_through_leaf_witness :
  exists what,
    getjs (JObj [("rate", JObj [("limit", JNum 60)])]) "rate.limit.reset"
    = Err (TypeError what).
Proof.
  apply (getjs_through_leaf _ "rate.limit.reset" ["rate"; "limit"] "reset" []
           (JNum 60)).
  - reflexivity.
  - reflexivity.
  - discriminate.
Defined.

Lemma length_append (u t : string) :
  String.length (u ++ t) = (String.length u + String.length t)%nat.
Proof.
  induction u as [|a u IH]; cbn [String.append String.length];
    [|rewrite IH]; reflexivity.
Qed.

(** [getjs] on a first segment and the rest of a path. *)
Lemma getjs_cons (J : json) (u rest : string) :
  mem "." u = false ->
  getjs J (u ++ String "." rest) =
  match subscript J u with
  | Ok v => getjs v rest
  | Err e => Err e
  end.
Proof.
  intros Hu. rewrite getjs_step.
  rewrite (index_of_char_app "." u _ Hu), index_of_char, Ascii.eqb_refl.
  cbn [option_map]. rewrite Nat.add_0_r.
  pose proof (take_app_length u (String "." rest) 0) as T.
  rewrite Nat.add_0_r in T. rewrite T.
  rewrite (drop_app_length u (String "." rest) 1).
  cbn [take drop]. rewrite append_empty_r. reflexivity.
Qed.

Lemma getjs_leaf (J : json) (u : string) :
  mem "." u = false -> getjs J u = subscript J u.
Proof.
  intros Hu. rewrite getjs_step, (index_of_char_absent _ _ Hu). reflexivity.
Qed.

Lemma getjs_append (n : nat) :
  forall (P Q : string) (J : json),
    (String.length P < n)%nat ->
    getjs J (P ++ String "." Q) =
    match getjs J P with
    | Ok v => getjs v Q
    | Err e => Err e
    end.
Proof.
  induction n as [|n IH]; intros P Q J Hlen; [lia|].
  destruct (mem "." P) eqn:Hm.
  - destruct (index_of_char_present _ _ Hm) as [i Hi].
    destruct (index_of_char_first _ _ _ Hi) as [Hu [rest Hr]].
    set (u := take i P) in *.
    assert (Hshort : (String.length rest < n)%nat).
    { rewrite Hr, length_append in Hlen. cbn [String.length] in Hlen. lia. }
    rewrite Hr, append_assoc3. cbn [String.append].
    rewrite !(getjs_cons J u _ Hu).
    destruct (subscript J u) as [v|e]; [|reflexivity].
    apply IH. exact Hshort.
  - rewrite (getjs_cons J P Q Hm), (getjs_leaf J P Hm). reflexivity.
Qed.

(** X24.  Paths compose: resolving [P.Q] is resolving [P] and then [Q]
    in the value found, and a failure in [P] is the failure of [P.Q].
    This is how the rate limits are read, with [path + ".remaining"]. *)
Theorem getjs_compose (J : json) (P Q : string) :
  getjs J (P ++ "." ++ Q) =
  match getjs J P with
  | Ok v => getjs v Q
  | Err e => Err e
  end.
Proof.
  change (P ++ "." ++ Q)%string with (P ++ String "." Q)%string.
  apply (getjs_append (S (String.length P))). lia.
Qed.
